(** * dp-graph: instance hierarchies on the Neptune and Neo4j backends

    A shallow embedding of the hierarchy code of the two graph drivers
    (neptune/hierarchy.go, neo4j/hierarchy_reader.go,
    neo4j/hierarchy_writer.go and the Neo4j bolt driver), followed by the
    properties of the hierarchy pipeline proved about it.

    Conventions.  A Go [error] is a value of [driver.error]; a nil error is
    [None].  A Go result pair (value, err) in which exactly one side is
    meaningful is a sum [error + value].  The graph store is external: each
    method that talks to it takes the store and returns the store it leaves
    behind. *)

From Stdlib Require Import ZArith String List Lia.
From stdpp Require Import base option list gmap strings fin_maps.

Local Open Scope string_scope.
Local Open Scope list_scope.

(** ** graph/driver: the error values shared by both backends *)

Module driver.

(** [Q] is the type of the statements a backend sends to its store; a
    wrapped error keeps the statement it was wrapped with. *)
Inductive error (Q : Type) : Type :=
| ErrNotFound
| ErrMultipleFound
| ErrNotImplemented
| errors_New (msg : string)
| Wrapf (err : error Q) (format : string) (q : Q)
| WithMessage (err : error Q) (msg : string).

Arguments ErrNotFound {Q}.
Arguments ErrMultipleFound {Q}.
Arguments ErrNotImplemented {Q}.
Arguments errors_New {Q} msg.
Arguments Wrapf {Q} err format q.
Arguments WithMessage {Q} err msg.

(** pkg/errors: wrapping a nil error yields nil. *)
Definition errors_WithMessage {Q} (err : option (error Q)) (msg : string)
  : option (error Q) :=
  match err with
  | None => None
  | Some e => Some (WithMessage e msg)
  end.

(** [err == driver.ErrNotFound] *)
Definition is_ErrNotFound {Q} (err : error Q) : bool :=
  match err with
  | ErrNotFound => true
  | _ => false
  end.

End driver.

(** ** Go library functions used by the drivers *)

Module strings.

(** strings.Join *)
Fixpoint Join (elems : list string) (sep : string) : string :=
  match elems with
  | [] => ""
  | [e] => e
  | e :: rest => e +:+ sep +:+ Join rest sep
  end.

End strings.

Module fmt.

(** The operands handed to fmt.Sprintf by the drivers: strings and, for
    the hasData flag, a boolean. *)
Inductive operand : Type :=
| Str (s : string)
| Bool (b : bool).

End fmt.

(** ** The Go runtime choices the code is exposed to

    Ranging over a map visits its entries in an order the runtime picks,
    and batches handed to concurrent workers complete in an order the
    runtime picks.  Both orders are parameters; [fair] says that they are
    orders: nothing is visited twice or skipped. *)

Class GoRuntime : Type := {
  range : gmap string string → list (string * string);
  completion : list (gmap string string) → list (gmap string string)
}.

Definition fair (rt : GoRuntime) : Prop :=
  (∀ m, range m ≡ₚ map_to_list m) ∧ (∀ cs, completion cs ≡ₚ cs).

(** The runtime that ranges in key order and completes batches in the
    order they were dispatched. *)
Definition sequential : GoRuntime :=
  {| range := map_to_list; completion := λ cs, cs |}.

(** ** models: what the hierarchy readers return *)

Module models.

Record HierarchyElement : Type := {
  element_ID : string;
  element_Label : string;
  element_NoOfChildren : Z;
  element_HasData : bool
}.

Record HierarchyResponse : Type := {
  ID : string;
  Label : string;
  Children : list HierarchyElement;
  NoOfChildren : Z;
  HasData : bool;
  Breadcrumbs : list HierarchyElement
}.

End models.

(** ** The Neptune backend *)

Module neptune.

Import models.

(** neptune/query: the Gremlin templates the hierarchy code formats.  The
    text of a template is backend detail; a statement is the template
    together with the operands it is formatted with. *)
Module query.

Inductive template : Type :=
| GetCodesWithData
| GetGenericHierarchyNodeIDs
| GetGenericHierarchyAncestryIDs
| CreateHasCodeEdge
| CloneHierarchyNodes
| CloneHierarchyNodesFromIDs
| CloneOrderFromIDs
| CountHierarchyNodes
| CloneHierarchyRelationships
| CloneHierarchyRelationshipsFromIDs
| GetHierarchyNodeIDs
| RemoveCloneMarkers
| RemoveCloneMarkersFromSourceIDs
| SetNumberOfChildren
| SetNumberOfChildrenFromIDs
| SetHasData
| MarkNodesToRemain
| RemoveNodesNotMarkedToRemain
| RemoveRemainMarker
| HierarchyExists
| GetHierarchyRoot
| GetHierarchyElement
| GetChildren
| GetAncestry.

End query.

(** fmt.Sprintf(query.X, a, b, ...) *)
Inductive gremlin : Type :=
| Sprintf (format : query.template) (operands : list fmt.operand).

Abbreviation error := (driver.error gremlin).

(** json.RawMessage: the bytes of one JSON value. *)
Definition RawMessage : Type := string.

(** gremgo.Response, reduced to the Result.Data the hierarchy code reads. *)
Record Response : Type := { Data : RawMessage }.

(** graphson property values. *)
Inductive value : Type :=
| VString (s : string)
| VBool (b : bool)
| VInt (z : Z).

(** graphson.Vertex: identifier, label and single-valued properties. *)
Record Vertex : Type := {
  vid : string;
  vlabel : string;
  vprops : gmap string value
}.

(** graphson.Edge: label, source (out) vertex and target (in) vertex. *)
Record Edge : Type := {
  elabel : string;
  eout : string;
  ein : string
}.

(** *** BatchScheduler *)

Section Batches.

Context {rt : GoRuntime} {S : Type}.

(** The per-batch function: given a chunk it talks to the store and
    returns a partial result map (nil counts as empty) or an error. *)
Definition batchProcessor : Type :=
  gmap string string → S → (error + gmap string string) * S.

(** Cut a list of entries into runs of [batchSize]; the last run holds
    the remainder.  The recursion is on the number of entries left. *)
Fixpoint split_fuel {A} (fuel batchSize : nat) (l : list A) : list (list A) :=
  match fuel, l with
  | Datatypes.S fuel', _ :: _ =>
      take batchSize l :: split_fuel fuel' batchSize (drop batchSize l)
  | _, _ => []
  end.

Definition split {A} (batchSize : nat) (l : list A) : list (list A) :=
  split_fuel (length l) batchSize l.

(** The chunks a map is partitioned into, in dispatch order. *)
Definition chunksOf (items : gmap string string) (batchSize : nat)
  : list (gmap string string) :=
  (λ entries, list_to_map entries) <$> split batchSize (range items).

(** Run the per-batch function on each chunk in turn, merging the partial
    results (last write wins) and recording every error. *)
Fixpoint runBatches (processBatch : batchProcessor)
    (chunks : list (gmap string string))
    (result : gmap string string) (errs : list error) (s : S)
  : gmap string string * list error * S :=
  match chunks with
  | [] => (result, errs, s)
  | chunk :: rest =>
      match processBatch chunk s with
      | (inl err, s') => runBatches processBatch rest result (errs ++ [err]) s'
      | (inr res, s') => runBatches processBatch rest (res ∪ result) errs s'
      end
  end.

(** Modelled from the spec: processInConcurrentBatches, the batch
    scheduler of the neptune package, which every ID-driven phase calls
    and whose body is not available.  Following section 4.1 of the
    specification: the input mapping is partitioned into chunks of at most
    [batchSize] entries; the per-batch function runs once per chunk, with
    no retry at this layer; successful partial results are merged into one
    mapping, last write winning; every chunk error is recorded and no
    worker is cancelled.  An empty mapping has no chunks.  [maxWorkers]
    bounds how many chunks are in flight at once; every per-batch function
    of the hierarchy code makes its store calls one statement at a time,
    so a run is the runtime's completion order of the chunks and the bound
    does not change what is computed.  The second result is the number of
    chunks. *)
Definition processInConcurrentBatches (items : gmap string string)
    (processBatch : batchProcessor) (batchSize maxWorkers : nat) (s : S)
  : gmap string string * nat * list error * S :=
  let chunks := chunksOf items batchSize in
  let '(result, errs, s') :=
    runBatches processBatch (completion chunks) ∅ [] s in
  (result, length chunks, errs, s').

(** A per-batch function made to record the chunks it is invoked with,
    oldest first, next to the state it threads. *)
Definition recording (processBatch : batchProcessor)
    (chunk : gmap string string) (sl : S * list (gmap string string))
  : (error + gmap string string) * (S * list (gmap string string)) :=
  let '(r, s') := processBatch chunk (fst sl) in
  (r, (s', snd sl ++ [chunk])).

(** What each batch of a run returned, in the order the batches ran. *)
Fixpoint batchOutcomes (processBatch : batchProcessor)
    (chunks : list (gmap string string)) (s : S)
  : list (error + gmap string string) :=
  match chunks with
  | [] => []
  | chunk :: rest =>
      let '(r, s') := processBatch chunk s in
      r :: batchOutcomes processBatch rest s'
  end.

(** The errors among some outcomes, first collected first. *)
Definition errorsOf (outcomes : list (error + gmap string string)) : list error :=
  omap (λ o, match o with inl err => Some err | inr _ => None end) outcomes.

(** The partial results among some outcomes, merged; later ones win. *)
Definition mergedResults (outcomes : list (error + gmap string string))
  : gmap string string :=
  foldl (λ acc o, match o with inl _ => acc | inr res => res ∪ acc end)
    ∅ outcomes.

End Batches.

(** *** The graph store as the Neptune driver sees it *)

(** The connection pool: one operation per kind of answer.  Each takes the
    backend state and returns the backend state after the call. *)
Class NeptunePool (B : Type) : Type := {
  Execute : gremlin → B → (error + list Response) * B;
  Get : gremlin → B → (error + list Vertex) * B;
  GetStringList : gremlin → B → (error + list string) * B;
  GetE : gremlin → B → (error + list Edge) * B;
  GetCount : gremlin → B → (error + Z) * B
}.

(** A statement issued to the store, by the operation that carried it. *)
Inductive call : Type :=
| ExecuteCall (q : gremlin)
| GetCall (q : gremlin)
| GetStringListCall (q : gremlin)
| GetECall (q : gremlin)
| GetCountCall (q : gremlin).

(** The store: the backend together with the record of every statement
    issued so far, oldest first. *)
Record store (B : Type) : Type := {
  backend : B;
  calls : list call
}.

Arguments backend {B} _.
Arguments calls {B} _.

(** The settings of a NeptuneDB the hierarchy code reads. *)
Record NeptuneDB : Type := {
  maxWorkers : nat;
  batchSizeReader : nat;
  batchSizeWriter : nat
}.

(** graphson and encoding/json, as far as the hierarchy code uses them. *)
Class Graphson : Type := {
  DeserializeListFromBytes : RawMessage → error + list RawMessage;
  DeserializeMapFromBytes : RawMessage → error + gmap string RawMessage;
  json_Unmarshal : RawMessage → error + string
}.

Section Store.

Context {B : Type} {pool : NeptunePool B}.

Definition issue {A} (c : call) (run : B → (error + A) * B) (st : store B)
  : (error + A) * store B :=
  let '(r, b) := run (backend st) in
  (r, {| backend := b; calls := calls st ++ [c] |}).

(** The NeptuneDB methods exec, getVertices, getStringList, getEdges and
    getNumber stand between the hierarchy code and the pool.  Each is
    taken to be the pool operation it is named after, a parameter of this
    development, and its use is recorded in [calls], as the pool mock of
    the tests records it. *)
Definition exec (gremStmt : gremlin) : store B → (error + list Response) * store B :=
  issue (ExecuteCall gremStmt) (Execute gremStmt).

Definition getVertices (gremStmt : gremlin) : store B → (error + list Vertex) * store B :=
  issue (GetCall gremStmt) (Get gremStmt).

Definition getStringList (gremStmt : gremlin) : store B → (error + list string) * store B :=
  issue (GetStringListCall gremStmt) (GetStringList gremStmt).

Definition getEdges (gremStmt : gremlin) : store B → (error + list Edge) * store B :=
  issue (GetECall gremStmt) (GetE gremStmt).

Definition getNumber (gremStmt : gremlin) : store B → (error + Z) * store B :=
  issue (GetCountCall gremStmt) (GetCount gremStmt).

(** Modelled from the spec: getVertex, whose body is not available.
    Section 4.5: fetch the unique node; fail with "not found" if zero
    nodes match and with "multiple found" if more than one does. *)
Definition getVertex (gremStmt : gremlin) (st : store B)
  : (error + Vertex) * store B :=
  match getVertices gremStmt st with
  | (inl err, st1) => (inl err, st1)
  | (inr [], st1) => (inl driver.ErrNotFound, st1)
  | (inr [vertex], st1) => (inr vertex, st1)
  | (inr (_ :: _ :: _), st1) => (inl driver.ErrMultipleFound, st1)
  end.

End Store.

(** *** neptune/hierarchy.go *)

Section Hierarchy.

Context {rt : GoRuntime} {B : Type} {pool : NeptunePool B} {codec : Graphson}.

Variable n : NeptuneDB.

(** Modelled from the spec: createArray and createMapFromArrays, whose
    bodies are not available.  Section 3 (NodeIDSet): identifiers are kept
    as the keys of a mapping, which deduplicates them; createArray lists
    the keys of a mapping in the order a range visits them,
    createMapFromArrays makes the given strings the keys of a mapping. *)
Definition createArray (m : gmap string string) : list string :=
  fst <$> range m.

Definition createMapFromArrays (array : list string) : gmap string string :=
  list_to_map ((λ id, (id, "")) <$> array).

(** Modelled from the spec: createStringMapFromArrays, whose body is not
    available; as createMapFromArrays, for the identifiers a query
    returned. *)
Definition createStringMapFromArrays (array : list string) : gmap string string :=
  list_to_map ((λ id, (id, "")) <$> array).

Definition GetCodesWithData (attempt : Z) (instanceID dimensionName : string)
    (st : store B) : (error + list string) * store B :=
  let codesWithDataStmt :=
    Sprintf query.GetCodesWithData [fmt.Str instanceID; fmt.Str dimensionName] in
  match getStringList codesWithDataStmt st with
  | (inl err, st1) =>
      (inl (driver.Wrapf err "Gremlin query failed: %q" codesWithDataStmt), st1)
  | (inr codes, st1) => (inr codes, st1)
  end.

Definition getNodeIdCodeFromMap (nodeCodeMap : gmap string RawMessage)
  : error + string * string :=
  match nodeCodeMap !! "node_id" with
  | None => inl driver.ErrNotFound
  | Some rawNodeId =>
      match nodeCodeMap !! "node_code" with
      | None => inl driver.ErrNotFound
      | Some rawCode =>
          match json_Unmarshal rawNodeId with
          | inl err => inl err
          | inr nodeID =>
              match json_Unmarshal rawCode with
              | inl err => inl err
              | inr code => inr (nodeID, code)
              end
          end
      end
  end.

(** A record that cannot be parsed into the (id, code) shape: it is not
    a map, or it lacks the node_id or the node_code key, or one of the two
    values does not decode to a string. *)
Definition malformed (val : RawMessage) : bool :=
  match DeserializeMapFromBytes val with
  | inl _ => true
  | inr nodeCodeMap =>
      match nodeCodeMap !! "node_id", nodeCodeMap !! "node_code" with
      | Some rawNodeId, Some rawCode =>
          match json_Unmarshal rawNodeId, json_Unmarshal rawCode with
          | inr _, inr _ => false
          | _, _ => true
          end
      | _, _ => true
      end
  end.

(** The statement the batch function below issues for a chunk of codes. *)
Definition genericHierarchyStmt (codeListID : string) (ancestries : bool)
    (chunkCodes : gmap string string) : gremlin :=
  let codesString := "['" +:+ strings.Join (createArray chunkCodes) "','" +:+ "']" in
  if ancestries
  then Sprintf query.GetGenericHierarchyAncestryIDs
         [fmt.Str codeListID; fmt.Str codesString]
  else Sprintf query.GetGenericHierarchyNodeIDs
         [fmt.Str codeListID; fmt.Str codesString].

(** The inner loop of the batch function below: each item of a response
    is a map holding node_id and node_code. *)
Fixpoint decodeItems (idCodeMap : list RawMessage)
    (nodeIdOrders : gmap string string) : error + gmap string string :=
  match idCodeMap with
  | [] => inr nodeIdOrders
  | val :: rest =>
      match DeserializeMapFromBytes val with
      | inl err => inl err
      | inr nodeIdCodeMap =>
          match getNodeIdCodeFromMap nodeIdCodeMap with
          | inl err => inl err
          | inr (nodeId, code) =>
              decodeItems rest (<[nodeId := code]> nodeIdOrders)
          end
      end
  end.

(** The outer loop: the responses of one statement arrive in batches. *)
Fixpoint decodeResponses (res : list Response)
    (nodeIdOrders : gmap string string) : error + gmap string string :=
  match res with
  | [] => inr nodeIdOrders
  | result :: rest =>
      match DeserializeListFromBytes (Data result) with
      | inl err => inl err
      | inr idCodeMap =>
          match decodeItems idCodeMap nodeIdOrders with
          | inl err => inl err
          | inr nodeIdOrders' => decodeResponses rest nodeIdOrders'
          end
      end
  end.

(** The closure processBatch of doGetGenericHierarchyNodeIDs. *)
Definition doGetGenericHierarchyNodeIDs_processBatch (codeListID : string)
    (ancestries : bool) (chunkCodes : gmap string string) (st : store B)
  : (error + gmap string string) * store B :=
  let codesString := "['" +:+ strings.Join (createArray chunkCodes) "','" +:+ "']" in
  let stmt :=
    if ancestries
    then Sprintf query.GetGenericHierarchyAncestryIDs
           [fmt.Str codeListID; fmt.Str codesString]
    else Sprintf query.GetGenericHierarchyNodeIDs
           [fmt.Str codeListID; fmt.Str codesString] in
  match exec stmt st with
  | (inl err, st1) => (inl (driver.Wrapf err "Gremlin query failed: %q" stmt), st1)
  | (inr res, st1) => (decodeResponses res ∅, st1)
  end.

Definition doGetGenericHierarchyNodeIDs (attempt : Z) (codeListID : string)
    (codes : list string) (ancestries : bool) (st : store B)
  : gmap string string * option error * store B :=
  let '(r, _, errs, st1) :=
    processInConcurrentBatches (createMapFromArrays codes)
      (doGetGenericHierarchyNodeIDs_processBatch codeListID ancestries)
      (batchSizeReader n) (maxWorkers n) st in
  match errs with
  | err :: _ => (∅, Some err, st1)
  | [] => (r, None, st1)
  end.

Definition GetGenericHierarchyNodeIDs (attempt : Z) (codeListID : string)
    (codes : list string) (st : store B)
  : gmap string string * option error * store B :=
  doGetGenericHierarchyNodeIDs attempt codeListID codes false st.

Definition GetGenericHierarchyAncestriesIDs (attempt : Z) (codeListID : string)
    (codes : list string) (st : store B)
  : gmap string string * option error * store B :=
  doGetGenericHierarchyNodeIDs attempt codeListID codes true st.

(** The loop of the batch function of CreateHasCodeEdges: one statement
    per entry of the chunk, stopping at the first failure. *)
Fixpoint createEdges (codeListID : string) (entries : list (string * string))
    (st : store B) : (error + gmap string string) * store B :=
  match entries with
  | [] => (inr ∅, st)
  | (nodeId, code) :: rest =>
      let stmt := Sprintf query.CreateHasCodeEdge
                    [fmt.Str code; fmt.Str codeListID; fmt.Str nodeId] in
      match exec stmt st with
      | (inl err, st1) =>
          (inl (driver.Wrapf err "Gremlin query failed: %q" stmt), st1)
      | (inr _, st1) => createEdges codeListID rest st1
      end
  end.

Definition CreateHasCodeEdges_processBatch (codeListID : string)
    (chunk : gmap string string) (st : store B)
  : (error + gmap string string) * store B :=
  createEdges codeListID (range chunk) st.

Definition CreateHasCodeEdges (attempt : Z) (codeListID : string)
    (codesById : gmap string string) (st : store B) : option error * store B :=
  let '(_, _, errs, st1) :=
    processInConcurrentBatches codesById
      (CreateHasCodeEdges_processBatch codeListID) 1 (maxWorkers n) st in
  match errs with
  | err :: _ => (Some err, st1)
  | [] => (None, st1)
  end.

Definition CloneNodes (attempt : Z) (instanceID codeListID dimensionName : string)
    (st : store B) : option error * store B :=
  let gremStmt := Sprintf query.CloneHierarchyNodes
    [fmt.Str codeListID; fmt.Str instanceID; fmt.Str dimensionName;
     fmt.Str codeListID] in
  match exec gremStmt st with
  | (inl err, st1) => (Some err, st1)
  | (inr _, st1) => (None, st1)
  end.

(** The statement-only batch functions: format one statement over the
    identifiers of the chunk and issue it. *)
Definition idsStr (chunkIDs : gmap string string) : string :=
  "'" +:+ strings.Join (createArray chunkIDs) "','" +:+ "'".

Definition CloneNodesFromIDs_processBatch
    (instanceID codeListID dimensionName : string) (hasData : bool)
    (chunkIDs : gmap string string) (st : store B)
  : (error + gmap string string) * store B :=
  let gremStmt := Sprintf query.CloneHierarchyNodesFromIDs
    [fmt.Str (idsStr chunkIDs); fmt.Str instanceID; fmt.Str dimensionName;
     fmt.Bool hasData; fmt.Str codeListID] in
  match exec gremStmt st with
  | (inl err, st1) => (inl err, st1)
  | (inr _, st1) => (inr ∅, st1)
  end.

Definition CloneNodesFromIDs (attempt : Z)
    (instanceID codeListID dimensionName : string) (ids : gmap string string)
    (hasData : bool) (st : store B) : option error * store B :=
  let '(_, _, errs, st1) :=
    processInConcurrentBatches ids
      (CloneNodesFromIDs_processBatch instanceID codeListID dimensionName hasData)
      (batchSizeWriter n) (maxWorkers n) st in
  match errs with
  | err :: _ => (Some err, st1)
  | [] => (None, st1)
  end.

Definition CloneOrderFromIDs_processBatch (codeListID : string)
    (chunkIDs : gmap string string) (st : store B)
  : (error + gmap string string) * store B :=
  let gremStmt := Sprintf query.CloneOrderFromIDs
    [fmt.Str (idsStr chunkIDs); fmt.Str codeListID] in
  match exec gremStmt st with
  | (inl err, st1) => (inl err, st1)
  | (inr _, st1) => (inr ∅, st1)
  end.

Definition CloneOrderFromIDs (codeListID : string) (ids : gmap string string)
    (st : store B) : option error * store B :=
  let '(_, _, errs, st1) :=
    processInConcurrentBatches ids (CloneOrderFromIDs_processBatch codeListID)
      (batchSizeWriter n) (maxWorkers n) st in
  match errs with
  | err :: _ => (Some err, st1)
  | [] => (None, st1)
  end.

Definition CountNodes (instanceID dimensionName : string) (st : store B)
  : (error + Z) * store B :=
  let gremStmt := Sprintf query.CountHierarchyNodes
    [fmt.Str instanceID; fmt.Str dimensionName] in
  getNumber gremStmt st.

Definition RemoveCloneEdges (attempt : Z) (instanceID dimensionName : string)
    (st : store B) : option error * store B :=
  let gremStmt := Sprintf query.RemoveCloneMarkers
    [fmt.Str instanceID; fmt.Str dimensionName] in
  match exec gremStmt st with
  | (inl err, st1) => (Some err, st1)
  | (inr _, st1) => (None, st1)
  end.

Definition CloneRelationships (attempt : Z)
    (instanceID codeListID dimensionName : string) (st : store B)
  : option error * store B :=
  let gremStmt := Sprintf query.CloneHierarchyRelationships
    [fmt.Str codeListID; fmt.Str instanceID; fmt.Str dimensionName;
     fmt.Str instanceID; fmt.Str dimensionName] in
  match getEdges gremStmt st with
  | (inl err, st1) => (Some err, st1)
  | (inr _, st1) => RemoveCloneEdges attempt instanceID dimensionName st1
  end.

Definition CloneRelationshipsFromIDs_processBatch
    (instanceID dimensionName : string) (chunkIDs : gmap string string)
    (st : store B) : (error + gmap string string) * store B :=
  let gremStmt := Sprintf query.CloneHierarchyRelationshipsFromIDs
    [fmt.Str (idsStr chunkIDs); fmt.Str instanceID; fmt.Str dimensionName;
     fmt.Str instanceID; fmt.Str dimensionName] in
  match getEdges gremStmt st with
  | (inl err, st1) => (inl err, st1)
  | (inr _, st1) => (inr ∅, st1)
  end.

Definition CloneRelationshipsFromIDs (attempt : Z)
    (instanceID dimensionName : string) (ids : gmap string string)
    (st : store B) : option error * store B :=
  let '(_, _, errs, st1) :=
    processInConcurrentBatches ids
      (CloneRelationshipsFromIDs_processBatch instanceID dimensionName)
      (batchSizeWriter n) (maxWorkers n) st in
  match errs with
  | err :: _ => (Some err, st1)
  | [] => (None, st1)
  end.

Definition GetHierarchyNodeIDs (attempt : Z) (instanceID dimensionName : string)
    (st : store B) : (error + gmap string string) * store B :=
  let stmt := Sprintf query.GetHierarchyNodeIDs
    [fmt.Str instanceID; fmt.Str dimensionName] in
  match getStringList stmt st with
  | (inl err, st1) => (inl (driver.Wrapf err "Gremlin query failed: %q" stmt), st1)
  | (inr idList, st1) => (inr (createStringMapFromArrays idList), st1)
  end.

Definition RemoveCloneEdgesFromSourceIDs_processBatch
    (chunkIDs : gmap string string) (st : store B)
  : (error + gmap string string) * store B :=
  let gremStmt := Sprintf query.RemoveCloneMarkersFromSourceIDs
    [fmt.Str (idsStr chunkIDs)] in
  match exec gremStmt st with
  | (inl err, st1) => (inl err, st1)
  | (inr _, st1) => (inr ∅, st1)
  end.

Definition RemoveCloneEdgesFromSourceIDs (attempt : Z)
    (ids : gmap string string) (st : store B) : option error * store B :=
  let '(_, _, errs, st1) :=
    processInConcurrentBatches ids RemoveCloneEdgesFromSourceIDs_processBatch
      (batchSizeWriter n) (maxWorkers n) st in
  match errs with
  | err :: _ => (Some err, st1)
  | [] => (None, st1)
  end.

Definition SetNumberOfChildren (attempt : Z) (instanceID dimensionName : string)
    (st : store B) : option error * store B :=
  let gremStmt := Sprintf query.SetNumberOfChildren
    [fmt.Str instanceID; fmt.Str dimensionName] in
  match exec gremStmt st with
  | (inl err, st1) => (Some err, st1)
  | (inr _, st1) => (None, st1)
  end.

Definition SetNumberOfChildrenFromIDs_processBatch
    (chunkIDs : gmap string string) (st : store B)
  : (error + gmap string string) * store B :=
  let gremStmt := Sprintf query.SetNumberOfChildrenFromIDs
    [fmt.Str (idsStr chunkIDs)] in
  match exec gremStmt st with
  | (inl err, st1) => (inl err, st1)
  | (inr _, st1) => (inr ∅, st1)
  end.

Definition SetNumberOfChildrenFromIDs (attempt : Z)
    (ids : gmap string string) (st : store B) : option error * store B :=
  let '(_, _, errs, st1) :=
    processInConcurrentBatches ids SetNumberOfChildrenFromIDs_processBatch
      (batchSizeWriter n) (maxWorkers n) st in
  match errs with
  | err :: _ => (Some err, st1)
  | [] => (None, st1)
  end.

Definition SetHasData (attempt : Z) (instanceID dimensionName : string)
    (st : store B) : option error * store B :=
  let codesWithDataStmt := Sprintf query.GetCodesWithData
    [fmt.Str instanceID; fmt.Str dimensionName] in
  match getStringList codesWithDataStmt st with
  | (inl err, st1) =>
      (Some (driver.Wrapf err "Gremlin query failed: %q" codesWithDataStmt), st1)
  | (inr codes, st1) =>
      let codesString := "['" +:+ strings.Join codes "','" +:+ "']" in
      let gremStmt := Sprintf query.SetHasData
        [fmt.Str instanceID; fmt.Str dimensionName; fmt.Str codesString] in
      match exec gremStmt st1 with
      | (inl err, st2) => (Some err, st2)
      | (inr _, st2) => (None, st2)
      end
  end.

(** Modelled from the spec: the conversion of a vertex into the element
    it stands for, whose body is not available.  Section 3 (CloneNode): a
    node carries code, label, hasData and numberOfChildren, the properties
    MakeHierarchyVertex of the pool mock sets; a vertex that lacks one of
    them cannot be converted. *)
Definition convertVertexToElement (v : Vertex) : error + HierarchyElement :=
  match vprops v !! "code", vprops v !! "label",
        vprops v !! "numberOfChildren", vprops v !! "hasData" with
  | Some (VString code), Some (VString label), Some (VInt k), Some (VBool d) =>
      inr {| element_ID := code; element_Label := label;
             element_NoOfChildren := k; element_HasData := d |}
  | _, _, _, _ => inl (driver.errors_New "property not found")
  end.

Fixpoint convertVertices (vs : list Vertex) : error + list HierarchyElement :=
  match vs with
  | [] => inr []
  | v :: rest =>
      match convertVertexToElement v with
      | inl err => inl err
      | inr e =>
          match convertVertices rest with
          | inl err => inl err
          | inr es => inr (e :: es)
          end
      end
  end.

(** Modelled from the spec: buildHierarchyNode, whose body is not
    available.  Section 4.5: the result is assembled from the node itself, its
    children (direct descendants, one node query) and, when breadcrumbs
    are wanted, its ancestor chain, nearest first (one more node query,
    kept in the order the store returns it). *)
Definition buildHierarchyNode (v : Vertex) (instanceID dimension : string)
    (wantBreadcrumbs : bool) (st : store B)
  : (error + HierarchyResponse) * store B :=
  match convertVertexToElement v with
  | inl err => (inl err, st)
  | inr self =>
      let childrenStmt := Sprintf query.GetChildren
        [fmt.Str instanceID; fmt.Str dimension; fmt.Str (element_ID self)] in
      match getVertices childrenStmt st with
      | (inl err, st1) => (inl err, st1)
      | (inr childVertices, st1) =>
          match convertVertices childVertices with
          | inl err => (inl err, st1)
          | inr children =>
              let res breadcrumbs :=
                {| ID := element_ID self; Label := element_Label self;
                   Children := children;
                   NoOfChildren := element_NoOfChildren self;
                   HasData := element_HasData self;
                   Breadcrumbs := breadcrumbs |} in
              if wantBreadcrumbs then
                let ancestryStmt := Sprintf query.GetAncestry
                  [fmt.Str instanceID; fmt.Str dimension;
                   fmt.Str (element_ID self)] in
                match getVertices ancestryStmt st1 with
                | (inl err, st2) => (inl err, st2)
                | (inr ancestors, st2) =>
                    match convertVertices ancestors with
                    | inl err => (inl err, st2)
                    | inr breadcrumbs => (inr (res breadcrumbs), st2)
                    end
                end
              else (inr (res []), st1)
          end
      end
  end.

Definition GetHierarchyRoot (instanceID dimension : string) (st : store B)
  : (error + HierarchyResponse) * store B :=
  let gremStmt := Sprintf query.GetHierarchyRoot
    [fmt.Str instanceID; fmt.Str dimension] in
  match getVertices gremStmt st with
  | (inl err, st1) => (inl err, st1)
  | (inr vertices, st1) =>
      match vertices with
      | [] => (inl driver.ErrNotFound, st1)
      | _ :: _ :: _ => (inl driver.ErrMultipleFound, st1)
      | [vertex] =>
          let wantBreadcrumbs := false in
          buildHierarchyNode vertex instanceID dimension wantBreadcrumbs st1
      end
  end.

Definition HierarchyExists (instanceID dimension : string) (st : store B)
  : bool * option error * store B :=
  let gremStmt := Sprintf query.HierarchyExists
    [fmt.Str instanceID; fmt.Str dimension] in
  match getVertices gremStmt st with
  | (inl err, st1) => (false, Some err, st1)
  | (inr vertices, st1) =>
      if (length vertices =? 1)%nat then (true, None, st1)
      else if (1 <? length vertices)%nat then
        (true, Some driver.ErrMultipleFound, st1)
      else (false, None, st1)
  end.

Definition GetHierarchyElement (instanceID dimension code : string)
    (st : store B) : (error + HierarchyResponse) * store B :=
  let gremStmt := Sprintf query.GetHierarchyElement
    [fmt.Str instanceID; fmt.Str dimension; fmt.Str code] in
  match getVertex gremStmt st with
  | (inl err, st1) => (inl err, st1)
  | (inr vertex, st1) =>
      let wantBreadcrumbs := true in
      buildHierarchyNode vertex instanceID dimension wantBreadcrumbs st1
  end.

End Hierarchy.

End neptune.

(** ** The Neo4j backend *)

Module neo4j.

Import models.

(** neo4j/query: the Cypher templates; their text is backend detail. *)
Module query.

Inductive template : Type :=
| CreateHierarchyConstraint
| CloneHierarchyNodes
| CloneHierarchyRelationships
| SetNumberOfChildren
| SetHasData
| MarkNodesToRemain
| RemoveNodesNotMarkedToRemain
| RemoveRemainMarker
| HierarchyExists
| GetHierarchyRoot
| GetHierarchyElement
| GetChildren
| GetAncestry
| CountHierarchyNodes.

End query.

(** A Cypher statement is the string fmt.Sprintf returns. *)
Abbreviation error := (driver.error string).

(** fmt.Sprintf(query.X, a, b, ...): a pure function of the template and
    its operands. *)
Class Formatting : Type := {
  Sprintf : query.template → list string → string
}.

(** neoArgMap: the parameters bound to a statement; nil is the empty map. *)
Abbreviation neoArgMap := (gmap string string).

(** An error raised by the bolt library is foreign to graph/driver; it
    is kept by its message. *)
Definition boltError : Type := string.

Definition fromBolt (err : boltError) : error := driver.errors_New err.

(** One record of a result set, and what the cursor yields: the records,
    then io.EOF ([None]) or a failure of NextNeo. *)
Definition row : Type := list string.

Record Rows : Type := {
  records : list row;
  final : option boltError
}.

(** The bolt connection pool.  Each operation takes the backend state and
    returns the backend state after the call. *)
Class BoltPool (B : Type) : Type := {
  OpenPool : B → option boltError * B;
  QueryNeo : string → neoArgMap → B → (boltError + Rows) * B;
  ExecNeo : string → neoArgMap → B → option boltError * B
}.

(** A statement sent over a connection. *)
Inductive call : Type :=
| QueryNeoCall (query : string) (params : neoArgMap)
| ExecNeoCall (query : string) (params : neoArgMap).

(** The store: the backend and the record of the statements sent so far. *)
Record store (B : Type) : Type := {
  backend : B;
  calls : list call
}.

Arguments backend {B} _.
Arguments calls {B} _.

(** mapper.Result, reduced to what a mapper reads. *)
Record Result : Type := {
  Data : row;
  Index : nat
}.

(** mapper.ResultMapper over a target of type [T]: the Go mapper is a
    closure that updates the target it was built for. *)
Definition ResultMapper (T : Type) : Type := Result → T → error + T.

(** neo4j/mapper: the mappers the hierarchy readers use. *)
Class Mappers : Type := {
  mapper_Hierarchy : ResultMapper HierarchyResponse;
  mapper_HierarchyElement : ResultMapper (list HierarchyElement)
}.

(** The retry settings of a Neo4j: the classifier of transient errors and
    the ceiling on attempts. *)
Class Retrying : Type := {
  isTransientError : error → bool;
  maxRetries : Z
}.

(** *** The bolt driver (neo4jdriver) *)

Section Driver.

Context {B : Type} {pool : BoltPool B}.

(** The loop of Read over the cursor. *)
Fixpoint readRows {T} (rows : list row) (final : option boltError)
    (mapp : option (ResultMapper T)) (single : bool)
    (index numOfResults : nat) (target : T) : option error * T :=
  match rows with
  | [] =>
      match final with
      | Some nextNeoErr =>
          (Some (driver.WithMessage (fromBolt nextNeoErr)
                   "extractResults: rows.NextNeo() return unexpected error"),
           target)
      | None =>
          if (numOfResults =? 0)%nat then (Some driver.ErrNotFound, target)
          else (None, target)
      end
  | data :: rest =>
      let numOfResults := Datatypes.S numOfResults in
      if single && (0 <? index)%nat then
        (driver.errors_WithMessage None "non unique results", target)
      else
        match mapp with
        | Some f =>
            match f {| Data := data; Index := index |} target with
            | inl err =>
                (Some (driver.WithMessage err "mapResult returned an error"),
                 target)
            | inr target' =>
                readRows rest final mapp single (Datatypes.S index) numOfResults
                  target'
            end
        | None =>
            readRows rest final mapp single (Datatypes.S index) numOfResults target
        end
  end.

Definition Read {T} (query : string) (mapp : option (ResultMapper T))
    (single : bool) (target : T) (st : store B) : option error * T * store B :=
  match OpenPool (backend st) with
  | (Some err, b1) =>
      (Some (fromBolt err), target, {| backend := b1; calls := calls st |})
  | (None, b1) =>
      let st1 b := {| backend := b; calls := calls st ++ [QueryNeoCall query ∅] |} in
      match QueryNeo query ∅ b1 with
      | (inl err, b2) =>
          (driver.errors_WithMessage (Some (fromBolt err))
             "error executing neo4j query",
           target, st1 b2)
      | (inr rows, b2) =>
          let '(err, target') :=
            readRows (records rows) (final rows) mapp single 0 0 target in
          (err, target', st1 b2)
      end
  end.

(** Modelled from the spec: ReadWithParams, whose body is not available.
    It is the node query of section 6 of the specification (zero or more
    records, or a backend error), read the way Read reads them, with the
    parameters bound to the statement. *)
Definition ReadWithParams {T} (query : string) (params : neoArgMap)
    (mapp : option (ResultMapper T)) (single : bool) (target : T)
    (st : store B) : option error * T * store B :=
  match OpenPool (backend st) with
  | (Some err, b1) =>
      (Some (fromBolt err), target, {| backend := b1; calls := calls st |})
  | (None, b1) =>
      let st1 b := {| backend := b; calls := calls st ++ [QueryNeoCall query params] |} in
      match QueryNeo query params b1 with
      | (inl err, b2) =>
          (driver.errors_WithMessage (Some (fromBolt err))
             "error executing neo4j query",
           target, st1 b2)
      | (inr rows, b2) =>
          let '(err, target') :=
            readRows (records rows) (final rows) mapp single 0 0 target in
          (err, target', st1 b2)
      end
  end.

Definition Exec (query : string) (params : neoArgMap) (st : store B)
  : option error * store B :=
  match OpenPool (backend st) with
  | (Some err, b1) =>
      (Some (fromBolt err), {| backend := b1; calls := calls st |})
  | (None, b1) =>
      let st1 b := {| backend := b; calls := calls st ++ [ExecNeoCall query params] |} in
      match ExecNeo query params b1 with
      | (Some err, b2) =>
          (driver.errors_WithMessage (Some (fromBolt err))
             "error executing neo4j query",
           st1 b2)
      | (None, b2) => (None, st1 b2)
      end
  end.

End Driver.

(** *** neo4j/hierarchy_reader.go *)

Section Reader.

Context {B : Type} {pool : BoltPool B} {fmtq : Formatting} {mappers : Mappers}.

(** The zero value of models.HierarchyResponse. *)
Definition emptyResponse : HierarchyResponse :=
  {| ID := ""; Label := ""; Children := []; NoOfChildren := 0;
     HasData := false; Breadcrumbs := [] |}.

Definition queryElements (instanceID dimension neoStmt : string)
    (neoArgs : neoArgMap) (st : store B)
  : (error + list HierarchyElement) * store B :=
  match ReadWithParams neoStmt neoArgs (Some mapper_HierarchyElement) false []
          st with
  | (Some err, _, st1) => (inl err, st1)
  | (None, res, st1) => (inr res, st1)
  end.

Definition getChildren (instanceID dimension code : string) (st : store B)
  : (error + list HierarchyElement) * store B :=
  let neoStmt := Sprintf query.GetChildren [instanceID; dimension] in
  queryElements instanceID dimension neoStmt {["code" := code]} st.

Definition getAncestry (instanceID dimension code : string) (st : store B)
  : (error + list HierarchyElement) * store B :=
  let neoStmt := Sprintf query.GetAncestry [instanceID; dimension] in
  queryElements instanceID dimension neoStmt {["code" := code]} st.

Definition setChildren (res : HierarchyResponse)
    (children : list HierarchyElement) : HierarchyResponse :=
  {| ID := ID res; Label := Label res; Children := children;
     NoOfChildren := NoOfChildren res; HasData := HasData res;
     Breadcrumbs := Breadcrumbs res |}.

Definition setBreadcrumbs (res : HierarchyResponse)
    (breadcrumbs : list HierarchyElement) : HierarchyResponse :=
  {| ID := ID res; Label := Label res; Children := Children res;
     NoOfChildren := NoOfChildren res; HasData := HasData res;
     Breadcrumbs := breadcrumbs |}.

Definition queryResponse (instanceID dimension neoStmt : string)
    (neoArgs : neoArgMap) (st : store B)
  : (error + HierarchyResponse) * store B :=
  match ReadWithParams neoStmt neoArgs (Some mapper_Hierarchy) false
          emptyResponse st with
  | (Some err, _, st1) => (inl err, st1)
  | (None, res, st1) =>
      match getChildren instanceID dimension (ID res) st1 with
      | (inl err, st2) =>
          if driver.is_ErrNotFound err then (inr (setChildren res []), st2)
          else (inl err, st2)
      | (inr children, st2) => (inr (setChildren res children), st2)
      end
  end.

Definition GetHierarchyRoot (instanceID dimension : string) (st : store B)
  : (error + HierarchyResponse) * store B :=
  let neoStmt := Sprintf query.GetHierarchyRoot [instanceID; dimension] in
  queryResponse instanceID dimension neoStmt ∅ st.

(** The Go function returns the pair (res, err); after a failed ancestry
    query both are set. *)
Definition GetHierarchyElement (instanceID dimension code : string)
    (st : store B) : option HierarchyResponse * option error * store B :=
  let neoStmt := Sprintf query.GetHierarchyElement [instanceID; dimension] in
  match queryResponse instanceID dimension neoStmt {["code" := code]} st with
  | (inl err, st1) => (None, Some err, st1)
  | (inr res, st1) =>
      match getAncestry instanceID dimension code st1 with
      | (inl err, st2) => (Some (setBreadcrumbs res []), Some err, st2)
      | (inr breadcrumbs, st2) =>
          (Some (setBreadcrumbs res breadcrumbs), None, st2)
      end
  end.

Definition HierarchyExists (instanceID dimension : string) (st : store B)
  : bool * option error * store B :=
  let neoStmt := Sprintf query.HierarchyExists [instanceID; dimension] in
  match queryElements instanceID dimension neoStmt ∅ st with
  | (inl err, st1) =>
      if driver.is_ErrNotFound err then (false, None, st1)
      else (false, Some err, st1)
  | (inr vertices, st1) =>
      if (length vertices =? 1)%nat then (true, None, st1)
      else if (1 <? length vertices)%nat then
        (true, Some driver.ErrMultipleFound, st1)
      else (false, None, st1)
  end.

Definition GetCodesWithData (attempt : Z) (instanceID dimensionName : string)
    (st : store B) : list string * option error * store B :=
  ([], Some driver.ErrNotImplemented, st).

Definition GetGenericHierarchyNodeIDs (attempt : Z) (codeListID : string)
    (codes : list string) (st : store B)
  : gmap string string * option error * store B :=
  (∅, Some driver.ErrNotImplemented, st).

Definition GetGenericHierarchyAncestriesIDs (attempt : Z) (codeListID : string)
    (codes : list string) (st : store B)
  : gmap string string * option error * store B :=
  (∅, Some driver.ErrNotImplemented, st).

Definition GetHierarchyNodeIDs (attempt : Z) (instanceID dimensionName : string)
    (st : store B) : gmap string string * option error * store B :=
  (∅, Some driver.ErrNotImplemented, st).

End Reader.

(** *** neo4j/hierarchy_writer.go *)

Section Writer.

Context {B : Type} {pool : BoltPool B} {fmtq : Formatting} {retry : Retrying}.

(** Modelled from the spec: checkAttempts, whose body is not available.
    Section 4.2: the phase is invoked again when the classifier reports
    the error transient and the attempt is below the ceiling; otherwise
    the error is returned, wrapped with the failing statement. *)
Definition checkAttempts (err : error) (stmt : string) (attempt : Z)
  : option error :=
  if isTransientError err && (attempt <? maxRetries)%Z then None
  else Some (driver.Wrapf err "statement failed: %q" stmt).

(** Each mutating phase calls itself again after a transient failure.
    [fuel] bounds the number of invocations, [None] meaning that the bound
    was reached; an attempt counter never passes the ceiling before it is
    incremented, so the addition does not overflow. *)

Fixpoint CreateInstanceHierarchyConstraints (fuel : nat) (attempt : Z)
    (instanceID dimensionName : string) (st : store B)
  : option (option error * store B) :=
  match fuel with
  | O => None
  | Datatypes.S fuel' =>
      let q := Sprintf query.CreateHierarchyConstraint
        [instanceID; dimensionName] in
      match Exec q ∅ st with
      | (Some err, st1) =>
          match checkAttempts err q attempt with
          | Some finalErr => Some (Some finalErr, st1)
          | None =>
              CreateInstanceHierarchyConstraints fuel' (attempt + 1) instanceID dimensionName st1
          end
      | (None, st1) => Some (None, st1)
      end
  end.

Fixpoint CloneNodes (fuel : nat) (attempt : Z)
    (instanceID codeListID dimensionName : string) (st : store B)
  : option (option error * store B) :=
  match fuel with
  | O => None
  | Datatypes.S fuel' =>
      let q := Sprintf query.CloneHierarchyNodes
        [codeListID; instanceID; dimensionName] in
      match Exec q {["code_list" := codeListID]} st with
      | (Some err, st1) =>
          match checkAttempts err q attempt with
          | Some finalErr => Some (Some finalErr, st1)
          | None =>
              CloneNodes fuel' (attempt + 1) instanceID codeListID dimensionName st1
          end
      | (None, st1) => Some (None, st1)
      end
  end.

Fixpoint CloneRelationships (fuel : nat) (attempt : Z)
    (instanceID codeListID dimensionName : string) (st : store B)
  : option (option error * store B) :=
  match fuel with
  | O => None
  | Datatypes.S fuel' =>
      let q := Sprintf query.CloneHierarchyRelationships
        [codeListID; codeListID; instanceID; dimensionName; instanceID;
       dimensionName] in
      match Exec q ∅ st with
      | (Some err, st1) =>
          match checkAttempts err q attempt with
          | Some finalErr => Some (Some finalErr, st1)
          | None =>
              CloneRelationships fuel' (attempt + 1) instanceID codeListID dimensionName st1
          end
      | (None, st1) => Some (None, st1)
      end
  end.

Fixpoint SetNumberOfChildren (fuel : nat) (attempt : Z)
    (instanceID dimensionName : string) (st : store B)
  : option (option error * store B) :=
  match fuel with
  | O => None
  | Datatypes.S fuel' =>
      let q := Sprintf query.SetNumberOfChildren
        [instanceID; dimensionName; instanceID; dimensionName] in
      match Exec q ∅ st with
      | (Some err, st1) =>
          match checkAttempts err instanceID attempt with
          | Some finalErr => Some (Some finalErr, st1)
          | None =>
              SetNumberOfChildren fuel' (attempt + 1) instanceID dimensionName st1
          end
      | (None, st1) => Some (None, st1)
      end
  end.

Fixpoint SetHasData (fuel : nat) (attempt : Z)
    (instanceID dimensionName : string) (st : store B)
  : option (option error * store B) :=
  match fuel with
  | O => None
  | Datatypes.S fuel' =>
      let q := Sprintf query.SetHasData
        [instanceID; dimensionName; instanceID; dimensionName] in
      match Exec q ∅ st with
      | (Some err, st1) =>
          match checkAttempts err q attempt with
          | Some finalErr => Some (Some finalErr, st1)
          | None =>
              SetHasData fuel' (attempt + 1) instanceID dimensionName st1
          end
      | (None, st1) => Some (None, st1)
      end
  end.

Fixpoint MarkNodesToRemain (fuel : nat) (attempt : Z)
    (instanceID dimensionName : string) (st : store B)
  : option (option error * store B) :=
  match fuel with
  | O => None
  | Datatypes.S fuel' =>
      let q := Sprintf query.MarkNodesToRemain
        [instanceID; dimensionName; instanceID; dimensionName] in
      match Exec q ∅ st with
      | (Some err, st1) =>
          match checkAttempts err q attempt with
          | Some finalErr => Some (Some finalErr, st1)
          | None =>
              MarkNodesToRemain fuel' (attempt + 1) instanceID dimensionName st1
          end
      | (None, st1) => Some (None, st1)
      end
  end.

Fixpoint RemoveNodesNotMarkedToRemain (fuel : nat) (attempt : Z)
    (instanceID dimensionName : string) (st : store B)
  : option (option error * store B) :=
  match fuel with
  | O => None
  | Datatypes.S fuel' =>
      let q := Sprintf query.RemoveNodesNotMarkedToRemain
        [instanceID; dimensionName] in
      match Exec q ∅ st with
      | (Some err, st1) =>
          match checkAttempts err q attempt with
          | Some finalErr => Some (Some finalErr, st1)
          | None =>
              RemoveNodesNotMarkedToRemain fuel' (attempt + 1) instanceID dimensionName st1
          end
      | (None, st1) => Some (None, st1)
      end
  end.

Fixpoint RemoveRemainMarker (fuel : nat) (attempt : Z)
    (instanceID dimensionName : string) (st : store B)
  : option (option error * store B) :=
  match fuel with
  | O => None
  | Datatypes.S fuel' =>
      let q := Sprintf query.RemoveRemainMarker
        [instanceID; dimensionName] in
      match Exec q ∅ st with
      | (Some err, st1) =>
          match checkAttempts err q attempt with
          | Some finalErr => Some (Some finalErr, st1)
          | None =>
              RemoveRemainMarker fuel' (attempt + 1) instanceID dimensionName st1
          end
      | (None, st1) => Some (None, st1)
      end
  end.

Definition CloneNodesFromIDs (attempt : Z)
    (instanceID codeListID dimensionName : string) (ids : gmap string string)
    (hasData : bool) (st : store B) : option error * store B :=
  (Some driver.ErrNotImplemented, st).

Definition CloneRelationshipsFromIDs (attempt : Z)
    (instanceID dimensionName : string) (ids : gmap string string)
    (st : store B) : option error * store B :=
  (Some driver.ErrNotImplemented, st).

Definition CreateHasCodeEdges (attempt : Z) (codeListID : string)
    (codesById : gmap string string) (st : store B) : option error * store B :=
  (Some driver.ErrNotImplemented, st).

Definition CloneOrderFromIDs (codeListID : string) (ids : gmap string string)
    (st : store B) : option error * store B :=
  (Some driver.ErrNotImplemented, st).

Definition RemoveCloneEdges (attempt : Z) (instanceID dimensionName : string)
    (st : store B) : option error * store B :=
  (Some driver.ErrNotImplemented, st).

Definition RemoveCloneEdgesFromSourceIDs (attempt : Z)
    (ids : gmap string string) (st : store B) : option error * store B :=
  (Some driver.ErrNotImplemented, st).

Definition SetNumberOfChildrenFromIDs (attempt : Z)
    (ids : gmap string string) (st : store B) : option error * store B :=
  (Some driver.ErrNotImplemented, st).

End Writer.

End neo4j.

(** ** A graph store for the Neptune driver

    Vertices and edges, with the meaning of the statements the bulk
    relationship phase and the has-data phase issue.  Failures of the
    store are scripted: every call takes the next entry of [faults], and
    fails with it, changing nothing, when it is an error. *)

Module graphstore.

Import neptune.

Record Graph : Type := {
  vertices : list Vertex;
  edges : list Edge
}.

Record DB : Type := {
  graph : Graph;
  faults : list (option error)
}.

(** How the store reads the list literal of a within(...) step: whether a
    code is one of those the literal denotes. *)
Class Traversal : Type := {
  within : string → string → bool
}.

(** The labels of the three kinds of node, as the statements spell them. *)
Definition hierarchyLabel (instanceID dimensionName : string) : string :=
  "_hierarchy_node_" +:+ instanceID +:+ "_" +:+ dimensionName.

Definition dataLabel (instanceID dimensionName : string) : string :=
  "_" +:+ instanceID +:+ "_" +:+ dimensionName.

Definition genericLabel (codeListID : string) : string :=
  "_generic_hierarchy_node_" +:+ codeListID.

Definition hasLabel (label : string) (v : Vertex) : bool :=
  String.eqb (vlabel v) label.

Definition labelOf (g : Graph) (id : string) : option string :=
  vlabel <$> List.find (λ v, String.eqb (vid v) id) (vertices g).

Definition setProperty (key : string) (x : value) (v : Vertex) : Vertex :=
  {| vid := vid v; vlabel := vlabel v; vprops := <[key := x]> (vprops v) |}.

Section Meaning.

Context {tr : Traversal}.

Definition hasCodeWithin (literal : string) (v : Vertex) : bool :=
  match vprops v !! "code" with
  | Some (VString code) => within literal code
  | _ => false
  end.

(** Modelled from the spec: the meaning of query.GetCodesWithData, whose
    text is known from the tests only.  Section 4.5: the values recorded
    against the data nodes of the instance and dimension. *)
Definition codesWithData (instanceID dimensionName : string) (g : Graph)
  : list string :=
  omap (λ v, if hasLabel (dataLabel instanceID dimensionName) v
             then match vprops v !! "value" with
                  | Some (VString s) => Some s
                  | _ => None
                  end
             else None) (vertices g).

(** Modelled from the spec: the meaning of query.SetHasData, whose text
    is known from the tests only.  Section 4.4, phase 5: hasData becomes
    true on every node of the instance hierarchy whose code is in the
    given set. *)
Definition setHasData (instanceID dimensionName literal : string) (g : Graph)
  : Graph :=
  {| vertices :=
       (λ v, if hasLabel (hierarchyLabel instanceID dimensionName) v
                && hasCodeWithin literal v
             then setProperty "hasData" (VBool true) v
             else v) <$> vertices g;
     edges := edges g |}.

(** Whether [e] is a clone_of edge leaving a node of the hierarchy. *)
Definition cloneMarker (g : Graph) (label : string) (e : Edge) : bool :=
  String.eqb (elabel e) "clone_of"
  && match labelOf g (eout e) with
     | Some l => String.eqb l label
     | None => false
     end.

(** Modelled from the spec: the meaning of query.RemoveCloneMarkers,
    whose text is known from the tests only.  Section 4.4, phase 3: the
    clone_of edges of the instance hierarchy are deleted. *)
Definition removeCloneMarkers (instanceID dimensionName : string) (g : Graph)
  : Graph :=
  {| vertices := vertices g;
     edges := List.filter
       (λ e, negb (cloneMarker g (hierarchyLabel instanceID dimensionName) e))
       (edges g) |}.

(** The clones, within a hierarchy, of a generic node. *)
Definition clonesOf (g : Graph) (label generic : string) : list string :=
  eout <$> List.filter
    (λ e, cloneMarker g label e && String.eqb (ein e) generic) (edges g).

(** Modelled from the spec: the meaning of
    query.CloneHierarchyRelationships, whose text is not available.
    Section 4.4, phase 2: for each hasParent
    edge between generic nodes of the code list that both have clones in
    the hierarchy, the mirrored hasParent edge between the clones, found
    through their clone_of edges. *)
Definition clonedRelationships
    (codeListID instanceID dimensionName parentInstanceID parentDimensionName : string)
    (g : Graph) : list Edge :=
  e ← List.filter
        (λ e, String.eqb (elabel e) "hasParent"
              && match labelOf g (eout e) with
                 | Some l => String.eqb l (genericLabel codeListID)
                 | None => false
                 end) (edges g);
  p ← clonesOf g (hierarchyLabel parentInstanceID parentDimensionName) (ein e);
  c ← clonesOf g (hierarchyLabel instanceID dimensionName) (eout e);
  [{| elabel := "hasParent"; eout := c; ein := p |}].

Definition unsupported {A} (g : Graph) : (error + A) * Graph :=
  (inl (driver.errors_New "statement not supported by this store"), g).

Definition execute (q : gremlin) (g : Graph) : (error + list Response) * Graph :=
  match q with
  | Sprintf query.SetHasData [fmt.Str i; fmt.Str d; fmt.Str literal] =>
      (inr [], setHasData i d literal g)
  | Sprintf query.RemoveCloneMarkers [fmt.Str i; fmt.Str d] =>
      (inr [], removeCloneMarkers i d g)
  | _ => unsupported g
  end.

Definition getStringList (q : gremlin) (g : Graph) : (error + list string) * Graph :=
  match q with
  | Sprintf query.GetCodesWithData [fmt.Str i; fmt.Str d] =>
      (inr (codesWithData i d g), g)
  | _ => unsupported g
  end.

Definition getE (q : gremlin) (g : Graph) : (error + list Edge) * Graph :=
  match q with
  | Sprintf query.CloneHierarchyRelationships
      [fmt.Str cl; fmt.Str i; fmt.Str d; fmt.Str i'; fmt.Str d'] =>
      let new := clonedRelationships cl i' d' i d g in
      (inr new, {| vertices := vertices g; edges := edges g ++ new |})
  | _ => unsupported g
  end.

(** One call to the store: fail with the scripted fault, or answer. *)
Definition answer {A} (run : Graph → (error + A) * Graph) (db : DB)
  : (error + A) * DB :=
  match faults db with
  | Some err :: rest => (inl err, {| graph := graph db; faults := rest |})
  | None :: rest =>
      let '(r, g) := run (graph db) in (r, {| graph := g; faults := rest |})
  | [] =>
      let '(r, g) := run (graph db) in (r, {| graph := g; faults := [] |})
  end.

#[local] Instance graphPool : NeptunePool DB := {|
  Execute q := answer (execute q);
  Get q := answer (λ g, unsupported g);
  GetStringList q := answer (getStringList q);
  GetE q := answer (getE q);
  GetCount q := answer (λ g, unsupported g)
|}.

(** The hasData flags of the instance hierarchy: for each of its nodes,
    in store order, the identifier and the value of the property. *)
Definition hasDataFlags (instanceID dimensionName : string) (g : Graph)
  : list (string * option value) :=
  (λ v, (vid v, vprops v !! "hasData"))
    <$> List.filter (hasLabel (hierarchyLabel instanceID dimensionName))
          (vertices g).

End Meaning.

End graphstore.

(** ** Test doubles

    The pool mock of neptune/internal with some of its canned answers, a
    scripted bolt pool, and small instances of the interfaces above, for
    running the drivers on concrete inputs. *)

Module internal.

Import neptune.

Record NeptunePoolMock : Type := {
  ExecuteFunc : gremlin → error + list Response;
  GetFunc : gremlin → error + list Vertex;
  GetStringListFunc : gremlin → error + list string;
  GetEFunc : gremlin → error + list Edge;
  GetCountFunc : gremlin → error + Z
}.

#[local] Instance mockPool : NeptunePool NeptunePoolMock := {|
  Execute q m := (ExecuteFunc m q, m);
  Get q m := (GetFunc m q, m);
  GetStringList q m := (GetStringListFunc m q, m);
  GetE q m := (GetEFunc m q, m);
  GetCount q m := (GetCountFunc m q, m)
|}.

Definition NonTransientErr : error := driver.errors_New " MALFORMED REQUEST ".

Definition ReturnMalformedNilInterfaceRequestErr (q : gremlin)
  : error + list Vertex :=
  inl NonTransientErr.

Definition ReturnZeroVertices (q : gremlin) : error + list Vertex := inr [].

Definition ReturnCodesList (q : gremlin) : error + list string :=
  inr ["cpih1dim1S90401"; "cpih1dim1S90402"].

Definition MakeHierarchyVertex (vertexLabel code codeLabel : string)
    (numberOfChildren : Z) (hasData : bool) : Vertex :=
  {| vid := "unused_vertex_value_ID";
     vlabel := vertexLabel;
     vprops := <["code" := VString code]>
               (<["label" := VString codeLabel]>
               (<["numberOfChildren" := VInt numberOfChildren]>
               (<["hasData" := VBool hasData]> ∅))) |}.

(** A mock all of whose functions fail; tests override the ones they use. *)
Definition unset {A} (q : gremlin) : error + A :=
  inl (driver.errors_New "mock function is nil").

Definition emptyMock : NeptunePoolMock :=
  {| ExecuteFunc := unset; GetFunc := unset; GetStringListFunc := unset;
     GetEFunc := unset; GetCountFunc := unset |}.

Definition mockDB (poolMock : NeptunePoolMock) : store NeptunePoolMock :=
  {| backend := poolMock; calls := [] |}.

(** A store whose every response is one record holding a code only. *)
Definition codeOnly : store NeptunePoolMock :=
  mockDB {| ExecuteFunc := λ _, inr [{| Data := "cpih1dim1S90401" |}];
            GetFunc := unset; GetStringListFunc := unset;
            GetEFunc := unset; GetCountFunc := unset |}.

(** A wire format for tests: a response body is one record, written
    id=code; a body without the separator holds a code only. *)
#[local] Instance lineCodec : Graphson := {|
  DeserializeListFromBytes raw := inr [raw];
  DeserializeMapFromBytes raw :=
    match String.index 0 "=" raw with
    | Some i =>
        inr (<["node_id" := String.substring 0 i raw]>
             (<["node_code" :=
                  String.substring (i + 1) (String.length raw - i - 1) raw]> ∅))
    | None => inr (<["node_code" := raw]> ∅)
    end;
  json_Unmarshal raw := inr raw
|}.

(** A store that finds a code in a literal when the quoted code occurs
    in it. *)
#[local] Instance quoted : graphstore.Traversal := {|
  graphstore.within literal code :=
    match String.index 0 ("'" +:+ code +:+ "'") literal with
    | Some _ => true
    | None => false
    end
|}.

Definition testDB : NeptuneDB :=
  {| maxWorkers := 2; batchSizeReader := 2; batchSizeWriter := 2 |}.

(** The fixtures of the hierarchy tests. *)
Definition testCodeListID : string := "cpih1dim1aggid".

Definition testInstanceID : string := "f0a2f3f2-cc86-4bbb-a549-ffc99c89292c".

Definition testDimensionName : string := "aggregate".

Definition testAttempt : Z := 1.

Definition testIds : gmap string string :=
  <["cpih1dim1aggid--cpih1dim1S90401" := ""]>
  (<["cpih1dim1aggid--cpih1dim1S90402" := ""]> ∅).

Definition testAllIds : gmap string string :=
  <["cpih1dim1aggid--cpih1dim1S90401" := ""]>
  (<["cpih1dim1aggid--cpih1dim1S90402" := ""]>
  (<["cpih1dim1aggid--cpih1dim1G90400" := ""]>
  (<["cpih1dim1aggid--cpih1dim1T90000" := ""]>
  (<["cpih1dim1aggid--cpih1dim1A0" := ""]> ∅)))).

(** A pool that accepts every statement and answers with nothing, save
    for the codes with data and the count. *)
Definition accepting : NeptunePoolMock :=
  {| ExecuteFunc := λ _, inr []; GetFunc := λ _, inr [];
     GetStringListFunc := ReturnCodesList; GetEFunc := λ _, inr [];
     GetCountFunc := λ _, inr 123%Z |}.

(** A pool that rejects the statements naming the given identifier. *)
Definition rejecting (id : string) : NeptunePoolMock :=
  {| ExecuteFunc := λ q,
       match q with
       | Sprintf _ (fmt.Str ids :: _) =>
           match String.index 0 id ids with
           | Some _ => inl NonTransientErr
           | None => inr []
           end
       | _ => inr []
       end;
     GetFunc := unset; GetStringListFunc := unset; GetEFunc := unset;
     GetCountFunc := unset |}.

(** The scenario of section 8 of the specification: leaves S90401 and
    S90402 under the chain G90400, T90000, A0 of code list "cl"; all five
    cloned into the hierarchy of instance "i" and dimension "agg", still
    carrying their clone_of edges; observations for S90401 only. *)
Definition generic (code : string) : Vertex :=
  {| vid := "cl--" +:+ code;
     vlabel := graphstore.genericLabel "cl";
     vprops := <["code" := VString code]> ∅ |}.

Definition clone (code : string) : Vertex :=
  {| vid := "clone--" +:+ code;
     vlabel := graphstore.hierarchyLabel "i" "agg";
     vprops := <["code" := VString code]> (<["hasData" := VBool false]> ∅) |}.

Definition observed (code : string) : Vertex :=
  {| vid := "obs--" +:+ code;
     vlabel := graphstore.dataLabel "i" "agg";
     vprops := <["value" := VString code]> ∅ |}.

Definition scenario : graphstore.Graph :=
  let codes := ["S90401"; "S90402"; "G90400"; "T90000"; "A0"] in
  {| graphstore.vertices :=
       (generic <$> codes) ++ (clone <$> codes) ++ [observed "S90401"];
     graphstore.edges :=
       [ {| elabel := "hasParent"; eout := "cl--S90401"; ein := "cl--G90400" |};
         {| elabel := "hasParent"; eout := "cl--S90402"; ein := "cl--G90400" |};
         {| elabel := "hasParent"; eout := "cl--G90400"; ein := "cl--T90000" |};
         {| elabel := "hasParent"; eout := "cl--T90000"; ein := "cl--A0" |} ]
       ++ ((λ code, {| elabel := "clone_of"; eout := "clone--" +:+ code;
                       ein := "cl--" +:+ code |}) <$> codes) |}.

Definition scenarioDB (faults : list (option error)) : store graphstore.DB :=
  {| backend := {| graphstore.graph := scenario; graphstore.faults := faults |};
     calls := [] |}.

End internal.

Module boltmock.

Import models neo4j.

(** A bolt pool for tests: a connection is always to be had, queries are
    answered by a function of the statement, executions by a script
    consumed one entry per call. *)
Record BoltMock : Type := {
  queryFunc : string → neoArgMap → boltError + Rows;
  execScript : list (option boltError)
}.

#[local] Instance boltPool : BoltPool BoltMock := {|
  OpenPool m := (None, m);
  QueryNeo q params m := (queryFunc m q params, m);
  ExecNeo q params m :=
    match execScript m with
    | [] => (None, m)
    | r :: rest =>
        (r, {| queryFunc := queryFunc m; execScript := rest |})
    end
|}.

Definition templateName (t : query.template) : string :=
  match t with
  | query.CreateHierarchyConstraint => "CreateHierarchyConstraint"
  | query.CloneHierarchyNodes => "CloneHierarchyNodes"
  | query.CloneHierarchyRelationships => "CloneHierarchyRelationships"
  | query.SetNumberOfChildren => "SetNumberOfChildren"
  | query.SetHasData => "SetHasData"
  | query.MarkNodesToRemain => "MarkNodesToRemain"
  | query.RemoveNodesNotMarkedToRemain => "RemoveNodesNotMarkedToRemain"
  | query.RemoveRemainMarker => "RemoveRemainMarker"
  | query.HierarchyExists => "HierarchyExists"
  | query.GetHierarchyRoot => "GetHierarchyRoot"
  | query.GetHierarchyElement => "GetHierarchyElement"
  | query.GetChildren => "GetChildren"
  | query.GetAncestry => "GetAncestry"
  | query.CountHierarchyNodes => "CountHierarchyNodes"
  end.

(** Statements written as the name of the template applied to its
    operands. *)
#[local] Instance named : Formatting := {|
  Sprintf t operands :=
    templateName t +:+ "(" +:+ strings.Join operands "," +:+ ")"
|}.

(** Records of the form [code; label]. *)
Definition elementOf (r : Result) : error + HierarchyElement :=
  match Data r with
  | [code; label] =>
      inr {| element_ID := code; element_Label := label;
             element_NoOfChildren := 0; element_HasData := false |}
  | _ => inl (driver.errors_New "unexpected record")
  end.

#[local] Instance plainMappers : Mappers := {|
  mapper_Hierarchy r res :=
    match elementOf r with
    | inl err => inl err
    | inr e =>
        inr {| ID := element_ID e; Label := element_Label e;
               Children := Children res; NoOfChildren := NoOfChildren res;
               HasData := HasData res; Breadcrumbs := Breadcrumbs res |}
    end;
  mapper_HierarchyElement r l :=
    match elementOf r with
    | inl err => inl err
    | inr e => inr (l ++ [e])
    end
|}.

Definition transientErr : boltError := "TransientError: lock".

Definition malformedErr : boltError := "invalid query - 400".

Fixpoint mentionsTransient (err : error) : bool :=
  match err with
  | driver.errors_New msg => String.prefix "TransientError" msg
  | driver.WithMessage e _ => mentionsTransient e
  | driver.Wrapf e _ _ => mentionsTransient e
  | _ => false
  end.

#[local] Instance threeAttempts : Retrying := {|
  isTransientError := mentionsTransient;
  maxRetries := 3
|}.

Definition boltDB (m : BoltMock) : store BoltMock :=
  {| backend := m; calls := [] |}.

(** A store whose executions follow a script and whose queries fail. *)
Definition scripted (script : list (option boltError)) : store BoltMock :=
  boltDB {| queryFunc := λ _ _, inl malformedErr;
            execScript := script |}.

(** A failure of ExecNeo as Exec hands it on. *)
Definition behind (err : boltError) : error :=
  driver.WithMessage (fromBolt err) "error executing neo4j query".

(** A store that answers the root query of instance f0a2f3f2, dimension
    aggregate, with the given records and every other query with none. *)
Definition answering (rootAnswer : list row) : store BoltMock :=
  boltDB {| queryFunc := λ q _,
              if String.eqb q "GetHierarchyRoot(f0a2f3f2,aggregate)"
              then inr {| records := rootAnswer; final := None |}
              else inr {| records := []; final := None |};
            execScript := [] |}.

End boltmock.

(** ** More of the Neo4j bolt driver: Count *)

Module neo4jdriver.

Import neo4j.

(** What a call leaves behind: the values it returns, or a run-time
    panic. *)
Inductive outcome (A : Type) : Type :=
| Returned (a : A)
| Panicked (msg : string).

Arguments Returned {A} a.
Arguments Panicked {A} msg.

(** The type assertion [.(int64)] on a field of a record: the integer the
    field holds, if it holds one. *)
Class Fields : Type := {
  asInt64 : string → option Z
}.

(** rows.All(): the records read until the cursor ends, and the failure
    of NextNeo that ended it, if any. *)
Definition All (rows : Rows) : list row * option boltError :=
  (records rows, final rows).

Section Count.

Context {B : Type} {pool : BoltPool B} {fields : Fields}.

Definition Count (query : string) (st : store B)
  : outcome (Z * option error) * store B :=
  match OpenPool (backend st) with
  | (Some err, b1) =>
      (Returned (0%Z, Some (fromBolt err)),
       {| backend := b1; calls := calls st |})
  | (None, b1) =>
      let st1 b := {| backend := b; calls := calls st ++ [QueryNeoCall query ∅] |} in
      match QueryNeo query ∅ b1 with
      | (inl err, b2) =>
          (Returned (0%Z, driver.errors_WithMessage (Some (fromBolt err))
                            "error executing neo4j query"), st1 b2)
      | (inr rows, b2) =>
          match All rows with
          | (_, Some err) => (Returned (0%Z, Some (fromBolt err)), st1 b2)
          | (data, None) =>
              match data with
              | (field :: _) :: _ =>
                  match asInt64 field with
                  | Some count => (Returned (count, None), st1 b2)
                  | None =>
                      (Returned (0%Z, Some (driver.errors_New
                                              "Could not get result from DB")),
                       st1 b2)
                  end
              | _ => (Panicked "index out of range", st1 b2)
              end
          end
      end
  end.

End Count.

End neo4jdriver.

(** ** The rest of neo4j/hierarchy_reader.go *)

Module neo4jreader.

Import neo4j.

(** mapper.HierarchyCodelist: the mapper that writes the code list
    identifier of a hierarchy node into a string. *)
Class CodelistMapper : Type := {
  mapper_HierarchyCodelist : ResultMapper string
}.

Section Reader.

Context {B : Type} {pool : BoltPool B} {fmtq : Formatting}
        {codelist : CodelistMapper} {fields : neo4jdriver.Fields}.

Definition GetHierarchyCodelist (instanceID dimension : string) (st : store B)
  : string * option error * store B :=
  let neoStmt := Sprintf query.HierarchyExists [instanceID; dimension] in
  match Read neoStmt (Some mapper_HierarchyCodelist) false "" st with
  | (Some err, _, st1) => ("", Some err, st1)
  | (None, codelistID, st1) => (codelistID, None, st1)
  end.

Definition CountNodes (instanceID dimensionName : string) (st : store B)
  : neo4jdriver.outcome (Z * option error) * store B :=
  let q := Sprintf query.CountHierarchyNodes [instanceID; dimensionName] in
  neo4jdriver.Count q st.

End Reader.

End neo4jreader.

(** ** neo4j/codelist.go *)

Module codelist.

Import neo4j.

(** neo4j/query: the templates of the code list queries. *)
Module query.

Inductive template : Type :=
| GetCodeLists
| GetCodeList
| GetCodeListEdition
| GetCodes
| GetCode
| GetCodeDatasets.

End query.

Class Formatting : Type := {
  Sprintf : query.template → list string → string
}.

(** The order in which a range visits the entries of a map, for maps of
    any value type; [fairRange] says that it is an order. *)
Class GoRange : Type := {
  rangeOver : ∀ {A : Type}, gmap string A → list (string * A)
}.

Definition fairRange (r : GoRange) : Prop :=
  ∀ (A : Type) (m : gmap string A), rangeOver m ≡ₚ map_to_list m.

(** The range that visits a map in key order. *)
Definition inKeyOrder : GoRange := {| rangeOver := λ A m, map_to_list m |}.

(** What mapper.CodesDatasets collects for a dataset: the label of the
    dimension and, per edition, the versions that use the code. *)
Record DatasetData : Type := {
  data_DimensionLabel : string;
  data_Editions : gmap string (list Z)
}.

(** models.DatasetEdition, models.Dataset and models.Datasets. *)
Record DatasetEdition : Type := {
  edition_ID : string;
  edition_CodeListID : string;
  edition_LatestVersion : Z
}.

Record Dataset : Type := {
  dataset_ID : string;
  dataset_DimensionLabel : string;
  dataset_Editions : list DatasetEdition
}.

Record Datasets : Type := {
  Items : list Dataset
}.

(** The other models of the code list API and the mappers that fill
    them; a model starts out as its zero value. *)
Class Entities : Type := {
  CodeListResults : Type;
  CodeList : Type;
  Editions : Type;
  Edition : Type;
  CodeResults : Type;
  Code : Type;
  zeroCodeListResults : CodeListResults;
  zeroCodeList : CodeList;
  zeroEditions : Editions;
  zeroEdition : Edition;
  zeroCodeResults : CodeResults;
  zeroCode : Code;
  mapper_CodeLists : ResultMapper CodeListResults;
  mapper_CodeList : string → ResultMapper CodeList;
  mapper_Editions : ResultMapper Editions;
  mapper_Edition : ResultMapper Edition;
  mapper_Codes : string → string → ResultMapper CodeResults;
  mapper_Code : string → string → ResultMapper Code;
  mapper_CodesDatasets : ResultMapper (gmap string DatasetData)
}.

(** The loop of max, with the running maximum. *)
Fixpoint max_from (input : list Z) (max : Z) : Z :=
  match input with
  | [] => max
  | value :: rest => max_from rest (if (value >? max)%Z then value else max)
  end.

Definition max (input : list Z) : Z := max_from input 0%Z.

Section CodeList.

Context {B : Type} {pool : BoltPool B} {fmtq : Formatting}
        {entities : Entities} {ranging : GoRange}.

Definition GetCodeLists (filterBy : string) (st : store B)
  : (error + CodeListResults) * store B :=
  let filterBy :=
    if (0 <? String.length filterBy)%nat then ":_" +:+ filterBy else filterBy in
  let query := Sprintf query.GetCodeLists [filterBy] in
  match Read query (Some mapper_CodeLists) false zeroCodeListResults st with
  | (Some err, _, st1) => (inl err, st1)
  | (None, codeListResults, st1) => (inr codeListResults, st1)
  end.

Definition GetCodeList (code : string) (st : store B)
  : (error + CodeList) * store B :=
  let query := Sprintf query.GetCodeList [code] in
  match Read query (Some (mapper_CodeList code)) true zeroCodeList st with
  | (Some err, _, st1) => (inl err, st1)
  | (None, codeListResult, st1) => (inr codeListResult, st1)
  end.

Definition GetEditions (codeListID : string) (st : store B)
  : (error + Editions) * store B :=
  let query := Sprintf query.GetCodeList [codeListID] in
  match Read query (Some mapper_Editions) false zeroEditions st with
  | (Some err, _, st1) => (inl err, st1)
  | (None, editions, st1) => (inr editions, st1)
  end.

Definition GetEdition (codeListID editionID : string) (st : store B)
  : (error + Edition) * store B :=
  let query := Sprintf query.GetCodeListEdition [codeListID; editionID] in
  match Read query (Some mapper_Edition) true zeroEdition st with
  | (Some err, _, st1) => (inl err, st1)
  | (None, edition, st1) => (inr edition, st1)
  end.

Definition CountCodes (codeListID edition : string) (st : store B)
  : Z * option error * store B :=
  (0%Z, Some driver.ErrNotImplemented, st).

Definition GetCodes (codeListID editionID : string) (st : store B)
  : (error + CodeResults) * store B :=
  match GetEdition codeListID editionID st with
  | (inl _, st1) => (inl driver.ErrNotFound, st1)
  | (inr _, st1) =>
      let query := Sprintf query.GetCodes [codeListID; editionID] in
      match Read query (Some (mapper_Codes codeListID editionID)) false
              zeroCodeResults st1 with
      | (Some err, _, st2) => (inl err, st2)
      | (None, codes, st2) => (inr codes, st2)
      end
  end.

Definition GetCode (codeListID editionID codeID : string) (st : store B)
  : (error + Code) * store B :=
  match GetEdition codeListID editionID st with
  | (inl _, st1) => (inl driver.ErrNotFound, st1)
  | (inr _, st1) =>
      let query := Sprintf query.GetCode [codeListID; editionID; codeID] in
      match Read query (Some (mapper_Code codeListID editionID)) true
              zeroCode st1 with
      | (Some err, _, st2) => (inl err, st2)
      | (None, code, st2) => (inr code, st2)
      end
  end.

Definition GetCodesOrder (codeListID : string) (codes : list string)
    (st : store B) : gmap string Z * option error * store B :=
  (∅, Some driver.ErrNotImplemented, st).

(** The two loops of GetCodeDatasets that turn what the mapper collected
    into the response. *)
Definition datasetEditions (codeListID : string)
    (editions : gmap string (list Z)) : list DatasetEdition :=
  (λ entry, {| edition_ID := entry.1;
               edition_CodeListID := codeListID;
               edition_LatestVersion := max entry.2 |})
    <$> rangeOver editions.

Definition datasetItems (codeListID : string)
    (datasets : gmap string DatasetData) : list Dataset :=
  (λ entry, {| dataset_ID := entry.1;
               dataset_DimensionLabel := data_DimensionLabel entry.2;
               dataset_Editions :=
                 datasetEditions codeListID (data_Editions entry.2) |})
    <$> rangeOver datasets.

Definition GetCodeDatasets (codeListID edition code : string) (st : store B)
  : (error + Datasets) * store B :=
  match GetEdition codeListID edition st with
  | (inl _, st1) => (inl driver.ErrNotFound, st1)
  | (inr _, st1) =>
      let query := Sprintf query.GetCodeDatasets [codeListID; edition; code] in
      match Read query (Some mapper_CodesDatasets) false ∅ st1 with
      | (Some err, _, st2) => (inl err, st2)
      | (None, datasets, st2) =>
          (inr {| Items := datasetItems codeListID datasets |}, st2)
      end
  end.

End CodeList.

End codelist.

(** ** The single-statement phases of neptune/hierarchy.go not met so far *)

Module neptunephases.

Import neptune.

Section Phases.

Context {B : Type} {pool : NeptunePool B}.

Definition CreateInstanceHierarchyConstraints (attempt : Z)
    (instanceID dimensionName : string) (st : store B)
  : option error * store B :=
  (None, st).

Definition MarkNodesToRemain (attempt : Z) (instanceID dimensionName : string)
    (st : store B) : option error * store B :=
  let gremStmt := Sprintf query.MarkNodesToRemain
    [fmt.Str instanceID; fmt.Str dimensionName] in
  match exec gremStmt st with
  | (inl err, st1) => (Some err, st1)
  | (inr _, st1) => (None, st1)
  end.

Definition RemoveNodesNotMarkedToRemain (attempt : Z)
    (instanceID dimensionName : string) (st : store B)
  : option error * store B :=
  let gremStmt := Sprintf query.RemoveNodesNotMarkedToRemain
    [fmt.Str instanceID; fmt.Str dimensionName] in
  match exec gremStmt st with
  | (inl err, st1) => (Some err, st1)
  | (inr _, st1) => (None, st1)
  end.

Definition RemoveRemainMarker (attempt : Z) (instanceID dimensionName : string)
    (st : store B) : option error * store B :=
  let gremStmt := Sprintf query.RemoveRemainMarker
    [fmt.Str instanceID; fmt.Str dimensionName] in
  match exec gremStmt st with
  | (inl err, st1) => (Some err, st1)
  | (inr _, st1) => (None, st1)
  end.

End Phases.

End neptunephases.

(** ** The helpers of the hierarchy tests that build a response *)

Module neptunetest.

Import neptune.

(** json.Marshal of a string, SerializeMap, and json.Marshal of a
    graphson list of raw values; in the tests none of them fails. *)
Class GraphsonWriter : Type := {
  json_Marshal : string → RawMessage;
  SerializeMap : gmap string RawMessage → RawMessage;
  json_MarshalList : list RawMessage → RawMessage
}.

Section Helpers.

Context {rt : GoRuntime} {codec : Graphson} {writer : GraphsonWriter}.

Definition mockNodeIdCodeMap (expectedNodeId expectedCode : string)
  : gmap string RawMessage :=
  <["node_id" := json_Marshal expectedNodeId]>
  (<["node_code" := json_Marshal expectedCode]> ∅).

Definition mockNodeIdCodeMapResponse (expectedNodeId expectedCode : string)
  : RawMessage :=
  SerializeMap (mockNodeIdCodeMap expectedNodeId expectedCode).

(** The values the loop of mockGremgoResponseNodeIDCodeMap collects. *)
Definition mockValues (expectedNodeIdCodeMap : gmap string string)
  : list RawMessage :=
  (λ entry, mockNodeIdCodeMapResponse entry.1 entry.2)
    <$> range expectedNodeIdCodeMap.

Definition mockGremgoResponseNodeIDCodeMap
    (expectedNodeIdCodeMap : gmap string string) : list Response :=
  [{| Data := json_MarshalList (mockValues expectedNodeIdCodeMap) |}].

(** What one item of a response decodes to: the (id, code) pair, or the
    error that stops the decoding. *)
Definition decodedPair (val : RawMessage) : error + string * string :=
  match DeserializeMapFromBytes val with
  | inl err => inl err
  | inr nodeIdCodeMap => getNodeIdCodeFromMap nodeIdCodeMap
  end.

(** The entries some decoded pairs leave in a map: each pair is stored
    under its id, in order. *)
Definition stored (pairs : list (string * string))
    (nodeIdOrders : gmap string string) : gmap string string :=
  foldl (λ acc pair, <[pair.1 := pair.2]> acc) nodeIdOrders pairs.

End Helpers.

End neptunetest.

(** ** Test doubles for the code list queries and the response helpers *)

Module doubles.

Import neo4j.

Definition codelistTemplateName (t : codelist.query.template) : string :=
  match t with
  | codelist.query.GetCodeLists => "GetCodeLists"
  | codelist.query.GetCodeList => "GetCodeList"
  | codelist.query.GetCodeListEdition => "GetCodeListEdition"
  | codelist.query.GetCodes => "GetCodes"
  | codelist.query.GetCode => "GetCode"
  | codelist.query.GetCodeDatasets => "GetCodeDatasets"
  end.

#[local] Instance namedCodelist : codelist.Formatting := {|
  codelist.Sprintf t operands :=
    codelistTemplateName t +:+ "(" +:+ strings.Join operands "," +:+ ")"
|}.

(** Models that keep the first field of each record read. *)
Definition firstField : ResultMapper (list string) :=
  λ r l, inr (l ++ take 1 (Data r)).

#[local] Instance fieldEntities : codelist.Entities := {|
  codelist.CodeListResults := list string;
  codelist.CodeList := list string;
  codelist.Editions := list string;
  codelist.Edition := list string;
  codelist.CodeResults := list string;
  codelist.Code := list string;
  codelist.zeroCodeListResults := [];
  codelist.zeroCodeList := [];
  codelist.zeroEditions := [];
  codelist.zeroEdition := [];
  codelist.zeroCodeResults := [];
  codelist.zeroCode := [];
  codelist.mapper_CodeLists := firstField;
  codelist.mapper_CodeList := λ _, firstField;
  codelist.mapper_Editions := firstField;
  codelist.mapper_Edition := firstField;
  codelist.mapper_Codes := λ _ _, firstField;
  codelist.mapper_Code := λ _ _, firstField;
  codelist.mapper_CodesDatasets := λ _ m, inr m
|}.

(** A store that answers every query with the given records. *)
Definition returning (answer : list row) : store boltmock.BoltMock :=
  boltmock.boltDB
    {| boltmock.queryFunc := λ _ _, inr {| records := answer; final := None |};
       boltmock.execScript := [] |}.

(** A store that answers the element query of instance f0a2f3f2,
    dimension aggregate, with one record and every other query with
    none. *)
Definition answeringElement : store boltmock.BoltMock :=
  boltmock.boltDB
    {| boltmock.queryFunc := λ q _,
         if String.eqb q "GetHierarchyElement(f0a2f3f2,aggregate)"
         then inr {| records := [["A0"; "root"]]; final := None |}
         else inr {| records := []; final := None |};
       boltmock.execScript := [] |}.

(** What mapper.CodesDatasets could have collected for a code used by
    two datasets. *)
Definition collected : gmap string codelist.DatasetData :=
  <["cpih01" := {| codelist.data_DimensionLabel := "aggregate";
                   codelist.data_Editions :=
                     <["time-series" := [1; 3; 2]%Z]> ∅ |}]>
  (<["mid-year-pop-est" :=
       {| codelist.data_DimensionLabel := "geography";
          codelist.data_Editions := <["2018" := []]> ∅ |}]> ∅).

(** The writer that goes with the wire format [internal.lineCodec]. *)
#[local] Instance lineWriter : neptunetest.GraphsonWriter := {|
  neptunetest.json_Marshal s := s;
  neptunetest.SerializeMap m :=
    default "" (m !! "node_id") +:+ "=" +:+ default "" (m !! "node_code");
  neptunetest.json_MarshalList l :=
    match l with
    | [raw] => raw
    | _ => ""
    end
|}.

End doubles.

(** ** What the specification states, as definitions *)

Module spec.

(** Section 4.5, HierarchyExists: zero matches give false and no error,
    exactly one gives true and no error, more than one gives true with
    "multiple found". *)
Definition existsAnswer {Q} (matches : nat) : bool * option (driver.error Q) :=
  match matches with
  | 0 => (false, None)
  | 1 => (true, None)
  | _ => (true, Some driver.ErrMultipleFound)
  end.

(** Section 8: the number of chunk invocations for [N] entries and batch
    size [B] is the ceiling of N/B. *)
Definition ceilDiv (N B : nat) : nat := (N + B - 1) / B.

End spec.

(** * Properties *)

Local Open Scope nat_scope.

(** ** HierarchyExists *)

Section HierarchyExists.

Context {B : Type} {pool : neptune.NeptunePool B}.
Context {B' : Type} {bolt : neo4j.BoltPool B'} {fmtq : neo4j.Formatting}
        {mappers : neo4j.Mappers}.

Lemma neptune_HierarchyExists_found instanceID dimension (st st1 : neptune.store B) vs :
  neptune.getVertices
    (neptune.Sprintf neptune.query.HierarchyExists
       [fmt.Str instanceID; fmt.Str dimension]) st = (inr vs, st1) →
  neptune.HierarchyExists instanceID dimension st
  = (spec.existsAnswer (length vs), st1).
Proof.
  intros Hq. unfold neptune.HierarchyExists. rewrite Hq.
  destruct vs as [|v [|v' vs']]; reflexivity.
Qed.

Lemma neo4j_queryElements_no_rows instanceID dimension neoStmt neoArgs
    (st : neo4j.store B') b1 b2 :
  neo4j.OpenPool (neo4j.backend st) = (None, b1) →
  neo4j.QueryNeo neoStmt neoArgs b1
  = (inr {| neo4j.records := []; neo4j.final := None |}, b2) →
  neo4j.queryElements instanceID dimension neoStmt neoArgs st
  = (inl driver.ErrNotFound,
     {| neo4j.backend := b2;
        neo4j.calls := neo4j.calls st ++ [neo4j.QueryNeoCall neoStmt neoArgs] |}).
Proof.
  intros Hopen Hquery. unfold neo4j.queryElements, neo4j.ReadWithParams.
  rewrite Hopen, Hquery. reflexivity.
Qed.

(** The driver's Read reports a result set without records as
    ErrNotFound, whatever the mapper and the single flag. *)
Lemma neo4j_Read_no_records {T} query (mapp : option (neo4j.ResultMapper T))
    single (target : T) (st : neo4j.store B') b1 b2 :
  neo4j.OpenPool (neo4j.backend st) = (None, b1) →
  neo4j.QueryNeo query ∅ b1
  = (inr {| neo4j.records := []; neo4j.final := None |}, b2) →
  (neo4j.Read query mapp single target st).1 = (Some driver.ErrNotFound, target).
Proof.
  intros Hopen Hquery. unfold neo4j.Read. by rewrite Hopen, Hquery.
Qed.

Lemma neo4j_HierarchyExists_found instanceID dimension (st st1 : neo4j.store B') vs :
  neo4j.queryElements instanceID dimension
    (neo4j.Sprintf neo4j.query.HierarchyExists [instanceID; dimension]) ∅ st
  = (inr vs, st1) →
  neo4j.HierarchyExists instanceID dimension st
  = (spec.existsAnswer (length vs), st1).
Proof.
  intros Hq. unfold neo4j.HierarchyExists. rewrite Hq.
  destruct vs as [|v [|v' vs']]; reflexivity.
Qed.

(** C1.  When the query of HierarchyExists succeeds, the answer is
    (false, nil) for zero matching nodes, (true, nil) for exactly one and
    (true, ErrMultipleFound) for more than one.  On Neptune the matches
    are the vertices the query returns.  On Neo4j they are the elements
    read from the result set; the driver reports a result set without
    records as ErrNotFound, and that gives (false, nil). *)
Theorem HierarchyExists_answers instanceID dimension :
  (∀ (st st1 : neptune.store B) vs,
      neptune.getVertices
        (neptune.Sprintf neptune.query.HierarchyExists
           [fmt.Str instanceID; fmt.Str dimension]) st = (inr vs, st1) →
      neptune.HierarchyExists instanceID dimension st
      = (spec.existsAnswer (length vs), st1))
  ∧ (∀ (st st1 : neo4j.store B'),
      neo4j.queryElements instanceID dimension
        (neo4j.Sprintf neo4j.query.HierarchyExists [instanceID; dimension]) ∅ st
      = (inl driver.ErrNotFound, st1) →
      neo4j.HierarchyExists instanceID dimension st
      = (spec.existsAnswer 0, st1))
  ∧ (∀ (st st1 : neo4j.store B') vs,
      neo4j.queryElements instanceID dimension
        (neo4j.Sprintf neo4j.query.HierarchyExists [instanceID; dimension]) ∅ st
      = (inr vs, st1) →
      neo4j.HierarchyExists instanceID dimension st
      = (spec.existsAnswer (length vs), st1)).
Proof.
  split; [|split].
  - intros st st1 vs. apply neptune_HierarchyExists_found.
  - intros st st1 Hq. unfold neo4j.HierarchyExists. by rewrite Hq.
  - intros st st1 vs. apply neo4j_HierarchyExists_found.
Qed.

End HierarchyExists.

Lemma HierarchyExists_answers_witness :
  let vertex := internal.MakeHierarchyVertex "vertex-label" "code" "label" 1 true in
  let twoVertices :=
    {| internal.ExecuteFunc := internal.unset;
       internal.GetFunc := λ _, inr [vertex; vertex];
       internal.GetStringListFunc := internal.unset;
       internal.GetEFunc := internal.unset;
       internal.GetCountFunc := internal.unset |} in
  let noRows :=
    {| boltmock.queryFunc := λ _ _, inr {| neo4j.records := []; neo4j.final := None |};
       boltmock.execScript := [] |} in
  let oneRow :=
    {| boltmock.queryFunc := λ _ _,
         inr {| neo4j.records := [["code"; "label"]]; neo4j.final := None |};
       boltmock.execScript := [] |} in
  fst (neptune.HierarchyExists (pool := internal.mockPool) "instance" "aggregate"
         (internal.mockDB twoVertices))
  = (true, Some driver.ErrMultipleFound)
  ∧ fst (neo4j.HierarchyExists (pool := boltmock.boltPool)
           (fmtq := boltmock.named) (mappers := boltmock.plainMappers)
           "instance" "aggregate" (boltmock.boltDB noRows))
    = (false, None)
  ∧ fst (neo4j.HierarchyExists (pool := boltmock.boltPool)
           (fmtq := boltmock.named) (mappers := boltmock.plainMappers)
           "instance" "aggregate" (boltmock.boltDB oneRow))
    = (true, None).
Proof.
  intros vertex twoVertices noRows oneRow.
  destruct (HierarchyExists_answers (pool := internal.mockPool)
              (bolt := boltmock.boltPool) (fmtq := boltmock.named)
              (mappers := boltmock.plainMappers) "instance" "aggregate")
    as (Hneptune & Hzero & Hneo).
  split; [|split].
  - erewrite Hneptune by reflexivity. reflexivity.
  - erewrite (Hzero (boltmock.boltDB noRows)) by reflexivity. reflexivity.
  - erewrite (Hneo (boltmock.boltDB oneRow)) by reflexivity. reflexivity.
Defined.

(** ** The batch scheduler *)

Section BatchFacts.

Context {rt : GoRuntime}.

Lemma ceilDiv_zero (B : nat) : 0 < B → spec.ceilDiv 0 B = 0.
Proof. intros HB. unfold spec.ceilDiv. apply Nat.div_small. lia. Qed.

Lemma ceilDiv_step (N B : nat) :
  0 < B → 0 < N → spec.ceilDiv N B = Datatypes.S (spec.ceilDiv (N - B) B).
Proof.
  intros HB HN. unfold spec.ceilDiv.
  destruct (Nat.le_gt_cases B N) as [Hle|Hlt].
  - replace (N + B - 1) with ((N - B + B - 1) + 1 * B) by lia.
    rewrite Nat.div_add by lia. lia.
  - replace (N - B) with 0 by lia.
    rewrite (Nat.div_small (0 + B - 1) B) by lia.
    symmetry. apply (Nat.div_unique (N + B - 1) B 1 (N - 1)); lia.
Qed.

Lemma ceilDiv_spec (N B : nat) :
  0 < B → (N ≤ spec.ceilDiv N B * B ∧ spec.ceilDiv N B * B < N + B)%nat.
Proof.
  intros HB. unfold spec.ceilDiv.
  pose proof (Nat.div_mod (N + B - 1) B ltac:(lia)) as Hdm.
  pose proof (Nat.mod_upper_bound (N + B - 1) B ltac:(lia)) as Hub.
  nia.
Qed.

Lemma split_fuel_length {A} fuel B (l : list A) :
  0 < B → length l ≤ fuel →
  length (neptune.split_fuel fuel B l) = spec.ceilDiv (length l) B.
Proof.
  intros HB. revert l.
  induction fuel as [|fuel IH]; intros l Hl.
  - destruct l; [|simpl in Hl; lia]. simpl. by rewrite ceilDiv_zero.
  - destruct l as [|x l']; [simpl; by rewrite ceilDiv_zero|].
    cbn [neptune.split_fuel length].
    rewrite IH by (rewrite length_drop; simpl in *; lia).
    rewrite length_drop. symmetry. apply ceilDiv_step; simpl; lia.
Qed.

Lemma split_length {A} B (l : list A) :
  0 < B → length (neptune.split B l) = spec.ceilDiv (length l) B.
Proof. intros HB. apply split_fuel_length; [done | lia]. Qed.

Lemma split_fuel_bounded {A} fuel B (l : list A) :
  Forall (λ c, length c ≤ B) (neptune.split_fuel fuel B l).
Proof.
  revert l. induction fuel as [|fuel IH]; intros l; [constructor|].
  destruct l as [|x l']; [constructor|].
  cbn [neptune.split_fuel]. constructor; [|apply IH].
  rewrite length_take. lia.
Qed.

Lemma split_fuel_concat {A} fuel B (l : list A) :
  0 < B → length l ≤ fuel → concat (neptune.split_fuel fuel B l) = l.
Proof.
  intros HB. revert l.
  induction fuel as [|fuel IH]; intros l Hl.
  - destruct l; [done | simpl in Hl; lia].
  - destruct l as [|x l']; [done|].
    cbn [neptune.split_fuel concat].
    rewrite IH by (rewrite length_drop; simpl in *; lia).
    apply take_drop.
Qed.

Lemma size_list_to_map_le (l : list (string * string)) :
  size (list_to_map l : gmap string string) ≤ length l.
Proof.
  induction l as [|[k v] l IH]; [by rewrite list_to_map_nil, map_size_empty|].
  rewrite list_to_map_cons, map_size_insert. simpl.
  destruct (_ !! k); simpl; lia.
Qed.

Lemma chunksOf_length items B :
  fair rt → 0 < B →
  length (neptune.chunksOf items B) = spec.ceilDiv (size items) B.
Proof.
  intros [Hrange _] HB. unfold neptune.chunksOf.
  rewrite length_fmap, split_length by done.
  by rewrite (Permutation_length (Hrange items)), length_map_to_list.
Qed.

Lemma chunksOf_bounded items B :
  Forall (λ c : gmap string string, size c ≤ B) (neptune.chunksOf items B).
Proof.
  unfold neptune.chunksOf. apply Forall_fmap.
  eapply Forall_impl; [apply split_fuel_bounded|].
  intros c Hc. simpl. etrans; [apply size_list_to_map_le | done].
Qed.

Lemma chunksOf_empty B : fair rt → neptune.chunksOf ∅ B = [].
Proof.
  intros [Hrange _]. unfold neptune.chunksOf, neptune.split.
  pose proof (Hrange ∅) as Hp. rewrite map_to_list_empty in Hp.
  apply Permutation_nil_r in Hp. by rewrite Hp.
Qed.

(** The chunks partition the input mapping. *)
Lemma chunksOf_partition (items : gmap string string) B :
  fair rt → 0 < B → ⋃ (neptune.chunksOf items B) = items.
Proof.
  intros [Hrange _] HB. unfold neptune.chunksOf, neptune.split.
  assert (∀ ls : list (list (string * string)),
            ⋃ ((λ entries, list_to_map entries) <$> ls)
            = (list_to_map (concat ls) : gmap string string)) as Hunion.
  { induction ls as [|l ls IH]; [done|].
    rewrite fmap_cons, union_list_cons, IH. simpl.
    by rewrite list_to_map_app. }
  rewrite Hunion, split_fuel_concat by (done || lia).
  rewrite <- (list_to_map_proper (map_to_list items) (range items)).
  - apply list_to_map_to_list.
  - apply NoDup_fst_map_to_list.
  - symmetry. apply Hrange.
Qed.

Lemma completion_nil : fair rt → completion [] = [].
Proof. intros [_ Hc]. apply Permutation_nil_r, Hc. Qed.

End BatchFacts.

Section SchedulerRuns.

Context {rt : GoRuntime} {S : Type}.

Implicit Types (processBatch : neptune.batchProcessor (S := S)).
Implicit Types (chunks : list (gmap string string)).

Lemma runBatches_recording processBatch chunks result errs (s : S) log :
  neptune.runBatches (neptune.recording processBatch) chunks result errs (s, log)
  = let '(result', errs', s') :=
      neptune.runBatches processBatch chunks result errs s in
    (result', errs', (s', log ++ chunks)).
Proof.
  revert result errs s log.
  induction chunks as [|chunk rest IH]; intros result errs s log.
  - simpl. by rewrite app_nil_r.
  - cbn [neptune.runBatches]. unfold neptune.recording at 1. simpl.
    destruct (processBatch chunk s) as [[err|res] s1]; rewrite IH;
      destruct (neptune.runBatches _ _ _ _ _) as [[result' errs'] s'];
      by rewrite <- app_assoc.
Qed.

(** The errors recorded by a run extend the errors recorded before it. *)
Lemma runBatches_errs_extend processBatch chunks result errs (s : S) :
  ∃ new, (neptune.runBatches processBatch chunks result errs s).1.2 = errs ++ new.
Proof.
  revert result errs s.
  induction chunks as [|chunk rest IH]; intros result errs s.
  - exists []. simpl. by rewrite app_nil_r.
  - cbn [neptune.runBatches].
    destruct (processBatch chunk s) as [[err|res] s1].
    + destruct (IH result (errs ++ [err]) s1) as [new Hnew].
      exists (err :: new). rewrite Hnew. by rewrite <- app_assoc.
    + apply IH.
Qed.

(** C7.  For a positive batch size and a positive worker limit, the
    scheduler invokes the per-batch function exactly ceil(N/B) times for
    an input mapping of N entries, each time with a chunk of at most B
    entries; an empty input mapping gives an empty merged result, no
    error and no invocation at all. *)
Theorem scheduler_invocations (items : gmap string string)
    processBatch (batchSize maxWorkers : nat) (s : S) :
  fair rt → 0 < batchSize → 0 < maxWorkers →
  let '(result, numChunks, errs, (s', invoked)) :=
    neptune.processInConcurrentBatches items
      (neptune.recording processBatch) batchSize maxWorkers (s, []) in
  length invoked = spec.ceilDiv (size items) batchSize
  ∧ numChunks = spec.ceilDiv (size items) batchSize
  ∧ Forall (λ chunk : gmap string string, size chunk ≤ batchSize) invoked
  ∧ (items = ∅ → result = ∅ ∧ errs = [] ∧ invoked = [] ∧ s' = s).
Proof.
  intros Hfair HB HW. unfold neptune.processInConcurrentBatches.
  rewrite runBatches_recording.
  destruct (neptune.runBatches processBatch _ _ _ _) as [[result errs] s'] eqn:Hrun.
  simpl. destruct Hfair as [Hrange Hcomp].
  repeat split.
  - rewrite (Permutation_length (Hcomp _)).
    by apply chunksOf_length.
  - by apply chunksOf_length.
  - rewrite (Hcomp _). apply chunksOf_bounded.
  - subst items. rewrite chunksOf_empty, completion_nil in Hrun by done.
    simpl in Hrun. congruence.
  - subst items. rewrite chunksOf_empty, completion_nil in Hrun by done.
    simpl in Hrun. congruence.
  - subst items. by rewrite chunksOf_empty, completion_nil.
  - subst items. rewrite chunksOf_empty, completion_nil in Hrun by done.
    simpl in Hrun. congruence.
Qed.

End SchedulerRuns.

Lemma scheduler_invocations_witness :
  let items : gmap string string :=
    list_to_map [("a", ""); ("b", ""); ("c", ""); ("d", ""); ("e", "")] in
  let '(result, numChunks, errs, (s', invoked)) :=
    neptune.processInConcurrentBatches (rt := sequential) items
      (neptune.recording (λ chunk (s : unit), (inr chunk, s))) 2 2 (tt, []) in
  length invoked = spec.ceilDiv (size items) 2
  ∧ numChunks = spec.ceilDiv (size items) 2
  ∧ Forall (λ chunk : gmap string string, size chunk ≤ 2) invoked
  ∧ (items = ∅ → result = ∅ ∧ errs = [] ∧ invoked = [] ∧ s' = tt).
Proof.
  intros items.
  apply (scheduler_invocations (rt := sequential) items
           (λ chunk (s : unit), (inr chunk, s)) 2 2 tt).
  - split; intros; reflexivity.
  - lia.
  - lia.
Defined.

Example scheduler_five_entries_in_twos :
  let items : gmap string string :=
    list_to_map [("a", ""); ("b", ""); ("c", ""); ("d", ""); ("e", "")] in
  map_to_list <$>
    (neptune.processInConcurrentBatches (rt := sequential) items
       (neptune.recording (λ chunk (s : unit), (inr chunk, s))) 2 2 (tt, [])).2.2
  = [[("c", ""); ("e", "")]; [("a", ""); ("b", "")]; [("d", "")]].
Proof. vm_compute. reflexivity. Qed.

(** ** The ID-driven phases of the Neptune driver *)

Section Phases.

Context {rt : GoRuntime} {B : Type} {pool : neptune.NeptunePool B}
        {codec : neptune.Graphson}.

Implicit Types (st : neptune.store B) (ids items : gmap string string).
Implicit Types (processBatch : neptune.batchProcessor (S := neptune.store B)).

Lemma scheduler_empty processBatch batchSize maxWorkers st :
  fair rt →
  neptune.processInConcurrentBatches ∅ processBatch batchSize maxWorkers st
  = (∅, 0, [], st).
Proof.
  intros Hfair. unfold neptune.processInConcurrentBatches.
  by rewrite chunksOf_empty, completion_nil.
Qed.

(** C2.  Given an empty code list, GetGenericHierarchyNodeIDs and
    GetGenericHierarchyAncestriesIDs return an empty mapping and no error;
    given an empty identifier set, CloneNodesFromIDs,
    CloneRelationshipsFromIDs, RemoveCloneEdgesFromSourceIDs and
    SetNumberOfChildrenFromIDs return no error.  In every case the store
    is left as it was: no statement is issued. *)
Theorem empty_input_issues_nothing (n : neptune.NeptuneDB) (attempt : Z)
    (instanceID codeListID dimensionName : string) (hasData : bool) st :
  fair rt →
  neptune.GetGenericHierarchyNodeIDs n attempt codeListID [] st = (∅, None, st)
  ∧ neptune.GetGenericHierarchyAncestriesIDs n attempt codeListID [] st
    = (∅, None, st)
  ∧ neptune.CloneNodesFromIDs n attempt instanceID codeListID dimensionName
      ∅ hasData st = (None, st)
  ∧ neptune.CloneRelationshipsFromIDs n attempt instanceID dimensionName ∅ st
    = (None, st)
  ∧ neptune.RemoveCloneEdgesFromSourceIDs n attempt ∅ st = (None, st)
  ∧ neptune.SetNumberOfChildrenFromIDs n attempt ∅ st = (None, st).
Proof.
  intros Hfair.
  unfold neptune.GetGenericHierarchyNodeIDs,
    neptune.GetGenericHierarchyAncestriesIDs,
    neptune.doGetGenericHierarchyNodeIDs, neptune.CloneNodesFromIDs,
    neptune.CloneRelationshipsFromIDs, neptune.RemoveCloneEdgesFromSourceIDs,
    neptune.SetNumberOfChildrenFromIDs, neptune.createMapFromArrays.
  rewrite fmap_nil, list_to_map_nil.
  rewrite !scheduler_empty by done.
  repeat split.
Qed.

(** The same holds of the two other batched phases. *)
Lemma empty_input_issues_nothing_more (n : neptune.NeptuneDB) (attempt : Z)
    (codeListID : string) st :
  fair rt →
  neptune.CreateHasCodeEdges n attempt codeListID ∅ st = (None, st)
  ∧ neptune.CloneOrderFromIDs n codeListID ∅ st = (None, st).
Proof.
  intros Hfair. unfold neptune.CreateHasCodeEdges, neptune.CloneOrderFromIDs.
  rewrite !scheduler_empty by done. by split.
Qed.

Lemma errorsOf_cons_inl err (o : list (neptune.error + gmap string string)) :
  neptune.errorsOf (inl err :: o) = err :: neptune.errorsOf o.
Proof. reflexivity. Qed.

Lemma errorsOf_cons_inr res (o : list (neptune.error + gmap string string)) :
  neptune.errorsOf (inr res :: o) = neptune.errorsOf o.
Proof. reflexivity. Qed.

(** A run returns the merge of the partial results and the errors of its
    batches, in the order the batches ran. *)
Lemma runBatches_outcomes processBatch chunks result errs st :
  let outcomes := neptune.batchOutcomes processBatch chunks st in
  (neptune.runBatches processBatch chunks result errs st).1
  = (foldl (λ acc o, match o with inl _ => acc | inr res => res ∪ acc end)
       result outcomes,
     errs ++ neptune.errorsOf outcomes).
Proof.
  revert result errs st.
  induction chunks as [|chunk rest IH]; intros result errs st.
  - simpl. by rewrite app_nil_r.
  - cbn [neptune.runBatches neptune.batchOutcomes].
    destruct (processBatch chunk st) as [[err|res] st1].
    + rewrite IH, errorsOf_cons_inl. cbn [foldl]. by rewrite <- app_assoc.
    + by rewrite IH, errorsOf_cons_inr.
Qed.

Lemma scheduler_outcomes items processBatch batchSize maxWorkers st :
  let outcomes :=
    neptune.batchOutcomes processBatch
      (completion (neptune.chunksOf items batchSize)) st in
  let '(result, _, errs, _) :=
    neptune.processInConcurrentBatches items processBatch batchSize
      maxWorkers st in
  result = neptune.mergedResults outcomes ∧ errs = neptune.errorsOf outcomes.
Proof.
  unfold neptune.processInConcurrentBatches.
  pose proof (runBatches_outcomes processBatch
                (completion (neptune.chunksOf items batchSize)) ∅ [] st) as H.
  destruct (neptune.runBatches _ _ _ _ _) as [[result errs] st1].
  simpl in *. by inversion H.
Qed.

(** What every ID-driven phase makes of the scheduler's errors. *)
Lemma phase_first_error items processBatch batchSize maxWorkers st :
  (let '(_, _, errs, st1) :=
     neptune.processInConcurrentBatches items processBatch batchSize
       maxWorkers st in
   match errs with
   | err :: _ => (Some err, st1)
   | [] => (None, st1)
   end).1
  = head (neptune.errorsOf
            (neptune.batchOutcomes processBatch
               (completion (neptune.chunksOf items batchSize)) st)).
Proof.
  pose proof (scheduler_outcomes items processBatch batchSize maxWorkers st) as H.
  destruct (neptune.processInConcurrentBatches _ _ _ _ _)
    as [[[result k] errs] st1].
  simpl in H. destruct H as [_ ->].
  by destruct (neptune.errorsOf _).
Qed.

(** C4.  Each ID-driven phase returns the first error collected from its
    batches, and no error when no batch returned one; the two resolvers
    then also return the merged result mapping, and an empty mapping
    otherwise. *)
Theorem phases_return_first_batch_error (n : neptune.NeptuneDB) (attempt : Z)
    (instanceID codeListID dimensionName : string) (hasData ancestries : bool)
    (codes : list string) ids st :
  let ran processBatch batchSize items :=
    neptune.batchOutcomes processBatch
      (completion (neptune.chunksOf items batchSize)) st in
  let resolved :=
    ran (neptune.doGetGenericHierarchyNodeIDs_processBatch codeListID ancestries)
      (neptune.batchSizeReader n) (neptune.createMapFromArrays codes) in
  (neptune.doGetGenericHierarchyNodeIDs n attempt codeListID codes ancestries st).1
  = (match neptune.errorsOf resolved with
     | [] => neptune.mergedResults resolved
     | _ :: _ => ∅
     end, head (neptune.errorsOf resolved))
  ∧ (neptune.CloneNodesFromIDs n attempt instanceID codeListID dimensionName
       ids hasData st).1
    = head (neptune.errorsOf
              (ran (neptune.CloneNodesFromIDs_processBatch instanceID
                      codeListID dimensionName hasData)
                 (neptune.batchSizeWriter n) ids))
  ∧ (neptune.CloneRelationshipsFromIDs n attempt instanceID dimensionName
       ids st).1
    = head (neptune.errorsOf
              (ran (neptune.CloneRelationshipsFromIDs_processBatch instanceID
                      dimensionName)
                 (neptune.batchSizeWriter n) ids))
  ∧ (neptune.CloneOrderFromIDs n codeListID ids st).1
    = head (neptune.errorsOf
              (ran (neptune.CloneOrderFromIDs_processBatch codeListID)
                 (neptune.batchSizeWriter n) ids))
  ∧ (neptune.CreateHasCodeEdges n attempt codeListID ids st).1
    = head (neptune.errorsOf
              (ran (neptune.CreateHasCodeEdges_processBatch codeListID) 1 ids))
  ∧ (neptune.RemoveCloneEdgesFromSourceIDs n attempt ids st).1
    = head (neptune.errorsOf
              (ran neptune.RemoveCloneEdgesFromSourceIDs_processBatch
                 (neptune.batchSizeWriter n) ids))
  ∧ (neptune.SetNumberOfChildrenFromIDs n attempt ids st).1
    = head (neptune.errorsOf
              (ran neptune.SetNumberOfChildrenFromIDs_processBatch
                 (neptune.batchSizeWriter n) ids)).
Proof.
  intros ran resolved. split.
  - unfold neptune.doGetGenericHierarchyNodeIDs, resolved, ran.
    pose proof (scheduler_outcomes (neptune.createMapFromArrays codes)
      (neptune.doGetGenericHierarchyNodeIDs_processBatch codeListID ancestries)
      (neptune.batchSizeReader n) (neptune.maxWorkers n) st) as H.
    destruct (neptune.processInConcurrentBatches _ _ _ _ _)
      as [[[result k] errs] st1].
    simpl in H. destruct H as [-> ->].
    by destruct (neptune.errorsOf _).
  - repeat split; apply phase_first_error.
Qed.

End Phases.

Lemma empty_input_issues_nothing_witness :
  let st := internal.mockDB internal.emptyMock in
  fair sequential
  ∧ neptune.GetGenericHierarchyNodeIDs (rt := sequential)
      (pool := internal.mockPool) (codec := internal.lineCodec)
      internal.testDB 1 "cpih1dim1aggid" [] st = (∅, None, st)
  ∧ neptune.SetNumberOfChildrenFromIDs (rt := sequential)
      (pool := internal.mockPool) internal.testDB 1 ∅ st = (None, st).
Proof.
  intros st.
  assert (Hfair : fair sequential) by (split; intros; reflexivity).
  split; [exact Hfair|].
  destruct (empty_input_issues_nothing (rt := sequential)
              (pool := internal.mockPool) (codec := internal.lineCodec)
              internal.testDB 1 "f0a2f3f2" "cpih1dim1aggid" "aggregate" true st
              Hfair) as (Hids & _ & _ & _ & _ & Hchildren).
  split; [exact Hids | exact Hchildren].
Defined.

(** ** The ID-driven operations of the Neo4j driver *)

Section NotImplemented.

Context {B : Type}.

(** C5.  On the Neo4j backend every ID-driven operation returns
    ErrNotImplemented, with an empty value where it has one, and leaves
    the store, and with it the record of statements sent, as it was. *)
Theorem neo4j_id_driven_not_implemented (attempt : Z)
    (instanceID codeListID dimensionName : string) (hasData : bool)
    (codes : list string) (ids : gmap string string) (st : neo4j.store B) :
  neo4j.CloneNodesFromIDs attempt instanceID codeListID dimensionName ids
    hasData st = (Some driver.ErrNotImplemented, st)
  ∧ neo4j.CloneRelationshipsFromIDs attempt instanceID dimensionName ids st
    = (Some driver.ErrNotImplemented, st)
  ∧ neo4j.CreateHasCodeEdges attempt codeListID ids st
    = (Some driver.ErrNotImplemented, st)
  ∧ neo4j.CloneOrderFromIDs codeListID ids st
    = (Some driver.ErrNotImplemented, st)
  ∧ neo4j.RemoveCloneEdges attempt instanceID dimensionName st
    = (Some driver.ErrNotImplemented, st)
  ∧ neo4j.RemoveCloneEdgesFromSourceIDs attempt ids st
    = (Some driver.ErrNotImplemented, st)
  ∧ neo4j.SetNumberOfChildrenFromIDs attempt ids st
    = (Some driver.ErrNotImplemented, st)
  ∧ neo4j.GetCodesWithData attempt instanceID dimensionName st
    = ([], Some driver.ErrNotImplemented, st)
  ∧ neo4j.GetGenericHierarchyNodeIDs attempt codeListID codes st
    = (∅, Some driver.ErrNotImplemented, st)
  ∧ neo4j.GetGenericHierarchyAncestriesIDs attempt codeListID codes st
    = (∅, Some driver.ErrNotImplemented, st)
  ∧ neo4j.GetHierarchyNodeIDs attempt instanceID dimensionName st
    = (∅, Some driver.ErrNotImplemented, st).
Proof. repeat split. Qed.

End NotImplemented.

(** ** Retry of the mutating phases of the Neo4j driver *)

Section Retry.

Context {B : Type} {pool : neo4j.BoltPool B} {fmtq : neo4j.Formatting}
        {retry : neo4j.Retrying}.

Implicit Types (st : neo4j.store B) (err : neo4j.error) (attempt : Z).

Lemma checkAttempts_retry err stmt attempt :
  neo4j.isTransientError err = true → (attempt < neo4j.maxRetries)%Z →
  neo4j.checkAttempts err stmt attempt = None.
Proof.
  intros Htr Hlt. unfold neo4j.checkAttempts. rewrite Htr.
  by rewrite (proj2 (Z.ltb_lt _ _) Hlt).
Qed.

Lemma checkAttempts_final err stmt attempt :
  neo4j.isTransientError err = false ∨ (neo4j.maxRetries ≤ attempt)%Z →
  neo4j.checkAttempts err stmt attempt
  = Some (driver.Wrapf err "statement failed: %q" stmt).
Proof.
  intros [Hperm|Hge]; unfold neo4j.checkAttempts.
  - by rewrite Hperm.
  - rewrite (proj2 (Z.ltb_ge _ _) Hge). by rewrite andb_false_r.
Qed.

Lemma checkAttempts_None err stmt attempt :
  neo4j.checkAttempts err stmt attempt = None →
  neo4j.isTransientError err = true ∧ (attempt < neo4j.maxRetries)%Z.
Proof.
  unfold neo4j.checkAttempts.
  destruct (neo4j.isTransientError err); [|done].
  destruct (Z.ltb_spec attempt neo4j.maxRetries); [done|done].
Qed.

(** One invocation of a phase: the transient failure below the ceiling
    leads to the next invocation, with the attempt counter incremented
    and the other arguments as they were. *)
Ltac phase_step :=
  intros; subst;
  repeat match goal with x := _ |- _ => subst x end;
  cbn -[neo4j.Exec neo4j.checkAttempts singletonM empty Z.add];
  match goal with
  | H : neo4j.Exec _ _ _ = _ |- _ => rewrite H
  end;
  first [ by rewrite checkAttempts_retry
        | by rewrite checkAttempts_final
        | reflexivity ].

Lemma CloneNodes_retry fuel attempt instanceID codeListID dimensionName st st1 err :
  neo4j.Exec (neo4j.Sprintf neo4j.query.CloneHierarchyNodes
                [codeListID; instanceID; dimensionName])
    {["code_list" := codeListID]} st = (Some err, st1) →
  neo4j.isTransientError err = true → (attempt < neo4j.maxRetries)%Z →
  neo4j.CloneNodes (Datatypes.S fuel) attempt instanceID codeListID
    dimensionName st
  = neo4j.CloneNodes fuel (attempt + 1) instanceID codeListID dimensionName st1.
Proof. phase_step. Qed.

Lemma CloneNodes_final fuel attempt instanceID codeListID dimensionName st st1 err :
  let q := neo4j.Sprintf neo4j.query.CloneHierarchyNodes
             [codeListID; instanceID; dimensionName] in
  neo4j.Exec q {["code_list" := codeListID]} st = (Some err, st1) →
  neo4j.isTransientError err = false ∨ (neo4j.maxRetries ≤ attempt)%Z →
  neo4j.CloneNodes (Datatypes.S fuel) attempt instanceID codeListID
    dimensionName st
  = Some (Some (driver.Wrapf err "statement failed: %q" q), st1).
Proof. phase_step. Qed.

Lemma SetNumberOfChildren_retry fuel attempt instanceID dimensionName st st1 err :
  neo4j.Exec (neo4j.Sprintf neo4j.query.SetNumberOfChildren
                [instanceID; dimensionName; instanceID; dimensionName])
    ∅ st = (Some err, st1) →
  neo4j.isTransientError err = true → (attempt < neo4j.maxRetries)%Z →
  neo4j.SetNumberOfChildren (Datatypes.S fuel) attempt instanceID dimensionName st
  = neo4j.SetNumberOfChildren fuel (attempt + 1) instanceID dimensionName st1.
Proof. phase_step. Qed.

(** The final error of SetNumberOfChildren is wrapped with the instance
    identifier, which is what the phase hands to checkAttempts where its
    siblings hand over the statement. *)
Lemma SetNumberOfChildren_final fuel attempt instanceID dimensionName st st1 err :
  neo4j.Exec (neo4j.Sprintf neo4j.query.SetNumberOfChildren
                [instanceID; dimensionName; instanceID; dimensionName])
    ∅ st = (Some err, st1) →
  neo4j.isTransientError err = false ∨ (neo4j.maxRetries ≤ attempt)%Z →
  neo4j.SetNumberOfChildren (Datatypes.S fuel) attempt instanceID dimensionName st
  = Some (Some (driver.Wrapf err "statement failed: %q" instanceID), st1).
Proof. phase_step. Qed.

(** The other six phases retry and give up as CloneNodes does. *)

Lemma CreateInstanceHierarchyConstraints_retry fuel attempt instanceID dimensionName st st1 err :
  neo4j.Exec (neo4j.Sprintf neo4j.query.CreateHierarchyConstraint
                [instanceID; dimensionName])
    ∅ st = (Some err, st1) →
  neo4j.isTransientError err = true → (attempt < neo4j.maxRetries)%Z →
  neo4j.CreateInstanceHierarchyConstraints (Datatypes.S fuel) attempt instanceID dimensionName st
  = neo4j.CreateInstanceHierarchyConstraints fuel (attempt + 1) instanceID dimensionName st1.
Proof. phase_step. Qed.

Lemma CreateInstanceHierarchyConstraints_final fuel attempt instanceID dimensionName st st1 err :
  let q := neo4j.Sprintf neo4j.query.CreateHierarchyConstraint
             [instanceID; dimensionName] in
  neo4j.Exec q ∅ st = (Some err, st1) →
  neo4j.isTransientError err = false ∨ (neo4j.maxRetries ≤ attempt)%Z →
  neo4j.CreateInstanceHierarchyConstraints (Datatypes.S fuel) attempt instanceID dimensionName st
  = Some (Some (driver.Wrapf err "statement failed: %q" q), st1).
Proof. phase_step. Qed.

Lemma CloneRelationships_retry fuel attempt instanceID codeListID dimensionName st st1 err :
  neo4j.Exec (neo4j.Sprintf neo4j.query.CloneHierarchyRelationships
                [codeListID; codeListID; instanceID; dimensionName; instanceID;
                dimensionName])
    ∅ st = (Some err, st1) →
  neo4j.isTransientError err = true → (attempt < neo4j.maxRetries)%Z →
  neo4j.CloneRelationships (Datatypes.S fuel) attempt instanceID codeListID dimensionName st
  = neo4j.CloneRelationships fuel (attempt + 1) instanceID codeListID dimensionName st1.
Proof. phase_step. Qed.

Lemma CloneRelationships_final fuel attempt instanceID codeListID dimensionName st st1 err :
  let q := neo4j.Sprintf neo4j.query.CloneHierarchyRelationships
             [codeListID; codeListID; instanceID; dimensionName; instanceID;
                dimensionName] in
  neo4j.Exec q ∅ st = (Some err, st1) →
  neo4j.isTransientError err = false ∨ (neo4j.maxRetries ≤ attempt)%Z →
  neo4j.CloneRelationships (Datatypes.S fuel) attempt instanceID codeListID dimensionName st
  = Some (Some (driver.Wrapf err "statement failed: %q" q), st1).
Proof. phase_step. Qed.

Lemma SetHasData_retry fuel attempt instanceID dimensionName st st1 err :
  neo4j.Exec (neo4j.Sprintf neo4j.query.SetHasData
                [instanceID; dimensionName; instanceID; dimensionName])
    ∅ st = (Some err, st1) →
  neo4j.isTransientError err = true → (attempt < neo4j.maxRetries)%Z →
  neo4j.SetHasData (Datatypes.S fuel) attempt instanceID dimensionName st
  = neo4j.SetHasData fuel (attempt + 1) instanceID dimensionName st1.
Proof. phase_step. Qed.

Lemma SetHasData_final fuel attempt instanceID dimensionName st st1 err :
  let q := neo4j.Sprintf neo4j.query.SetHasData
             [instanceID; dimensionName; instanceID; dimensionName] in
  neo4j.Exec q ∅ st = (Some err, st1) →
  neo4j.isTransientError err = false ∨ (neo4j.maxRetries ≤ attempt)%Z →
  neo4j.SetHasData (Datatypes.S fuel) attempt instanceID dimensionName st
  = Some (Some (driver.Wrapf err "statement failed: %q" q), st1).
Proof. phase_step. Qed.

Lemma MarkNodesToRemain_retry fuel attempt instanceID dimensionName st st1 err :
  neo4j.Exec (neo4j.Sprintf neo4j.query.MarkNodesToRemain
                [instanceID; dimensionName; instanceID; dimensionName])
    ∅ st = (Some err, st1) →
  neo4j.isTransientError err = true → (attempt < neo4j.maxRetries)%Z →
  neo4j.MarkNodesToRemain (Datatypes.S fuel) attempt instanceID dimensionName st
  = neo4j.MarkNodesToRemain fuel (attempt + 1) instanceID dimensionName st1.
Proof. phase_step. Qed.

Lemma MarkNodesToRemain_final fuel attempt instanceID dimensionName st st1 err :
  let q := neo4j.Sprintf neo4j.query.MarkNodesToRemain
             [instanceID; dimensionName; instanceID; dimensionName] in
  neo4j.Exec q ∅ st = (Some err, st1) →
  neo4j.isTransientError err = false ∨ (neo4j.maxRetries ≤ attempt)%Z →
  neo4j.MarkNodesToRemain (Datatypes.S fuel) attempt instanceID dimensionName st
  = Some (Some (driver.Wrapf err "statement failed: %q" q), st1).
Proof. phase_step. Qed.

Lemma RemoveNodesNotMarkedToRemain_retry fuel attempt instanceID dimensionName st st1 err :
  neo4j.Exec (neo4j.Sprintf neo4j.query.RemoveNodesNotMarkedToRemain
                [instanceID; dimensionName])
    ∅ st = (Some err, st1) →
  neo4j.isTransientError err = true → (attempt < neo4j.maxRetries)%Z →
  neo4j.RemoveNodesNotMarkedToRemain (Datatypes.S fuel) attempt instanceID dimensionName st
  = neo4j.RemoveNodesNotMarkedToRemain fuel (attempt + 1) instanceID dimensionName st1.
Proof. phase_step. Qed.

Lemma RemoveNodesNotMarkedToRemain_final fuel attempt instanceID dimensionName st st1 err :
  let q := neo4j.Sprintf neo4j.query.RemoveNodesNotMarkedToRemain
             [instanceID; dimensionName] in
  neo4j.Exec q ∅ st = (Some err, st1) →
  neo4j.isTransientError err = false ∨ (neo4j.maxRetries ≤ attempt)%Z →
  neo4j.RemoveNodesNotMarkedToRemain (Datatypes.S fuel) attempt instanceID dimensionName st
  = Some (Some (driver.Wrapf err "statement failed: %q" q), st1).
Proof. phase_step. Qed.

Lemma RemoveRemainMarker_retry fuel attempt instanceID dimensionName st st1 err :
  neo4j.Exec (neo4j.Sprintf neo4j.query.RemoveRemainMarker
                [instanceID; dimensionName])
    ∅ st = (Some err, st1) →
  neo4j.isTransientError err = true → (attempt < neo4j.maxRetries)%Z →
  neo4j.RemoveRemainMarker (Datatypes.S fuel) attempt instanceID dimensionName st
  = neo4j.RemoveRemainMarker fuel (attempt + 1) instanceID dimensionName st1.
Proof. phase_step. Qed.

Lemma RemoveRemainMarker_final fuel attempt instanceID dimensionName st st1 err :
  let q := neo4j.Sprintf neo4j.query.RemoveRemainMarker
             [instanceID; dimensionName] in
  neo4j.Exec q ∅ st = (Some err, st1) →
  neo4j.isTransientError err = false ∨ (neo4j.maxRetries ≤ attempt)%Z →
  neo4j.RemoveRemainMarker (Datatypes.S fuel) attempt instanceID dimensionName st
  = Some (Some (driver.Wrapf err "statement failed: %q" q), st1).
Proof. phase_step. Qed.

(** With at least one invocation allowed, and more than attempts are left
    below the ceiling, a phase returns. *)
Ltac phase_total :=
  let fuel := fresh "fuel" in
  let IH := fresh "IH" in
  intros fuel; induction fuel as [|fuel IH];
  intros attempt st Hpos Hfuel; [lia|];
  cbn -[neo4j.Exec neo4j.checkAttempts singletonM empty Z.add];
  match goal with
  | |- context [neo4j.Exec ?q ?p ?s] =>
      destruct (neo4j.Exec q p s) as [[err|] st1]; [|by eexists]
  end;
  match goal with
  | |- context [neo4j.checkAttempts ?e ?x ?a] =>
      let Hc := fresh "Hc" in
      destruct (neo4j.checkAttempts e x a) eqn:Hc; [by eexists|];
      apply checkAttempts_None in Hc; apply IH; lia
  end.

Lemma CreateInstanceHierarchyConstraints_total instanceID dimensionName :
  ∀ fuel attempt st,
  0 < fuel → (neo4j.maxRetries - attempt < Z.of_nat fuel)%Z →
  ∃ r, neo4j.CreateInstanceHierarchyConstraints fuel attempt instanceID
         dimensionName st = Some r.
Proof. phase_total. Qed.

Lemma CloneNodes_total instanceID codeListID dimensionName :
  ∀ fuel attempt st,
  0 < fuel → (neo4j.maxRetries - attempt < Z.of_nat fuel)%Z →
  ∃ r, neo4j.CloneNodes fuel attempt instanceID codeListID dimensionName st
       = Some r.
Proof. phase_total. Qed.

Lemma CloneRelationships_total instanceID codeListID dimensionName :
  ∀ fuel attempt st,
  0 < fuel → (neo4j.maxRetries - attempt < Z.of_nat fuel)%Z →
  ∃ r, neo4j.CloneRelationships fuel attempt instanceID codeListID
         dimensionName st = Some r.
Proof. phase_total. Qed.

Lemma SetNumberOfChildren_total instanceID dimensionName :
  ∀ fuel attempt st,
  0 < fuel → (neo4j.maxRetries - attempt < Z.of_nat fuel)%Z →
  ∃ r, neo4j.SetNumberOfChildren fuel attempt instanceID dimensionName st
       = Some r.
Proof. phase_total. Qed.

Lemma SetHasData_total instanceID dimensionName :
  ∀ fuel attempt st,
  0 < fuel → (neo4j.maxRetries - attempt < Z.of_nat fuel)%Z →
  ∃ r, neo4j.SetHasData fuel attempt instanceID dimensionName st = Some r.
Proof. phase_total. Qed.

Lemma MarkNodesToRemain_total instanceID dimensionName :
  ∀ fuel attempt st,
  0 < fuel → (neo4j.maxRetries - attempt < Z.of_nat fuel)%Z →
  ∃ r, neo4j.MarkNodesToRemain fuel attempt instanceID dimensionName st
       = Some r.
Proof. phase_total. Qed.

Lemma RemoveNodesNotMarkedToRemain_total instanceID dimensionName :
  ∀ fuel attempt st,
  0 < fuel → (neo4j.maxRetries - attempt < Z.of_nat fuel)%Z →
  ∃ r, neo4j.RemoveNodesNotMarkedToRemain fuel attempt instanceID
         dimensionName st = Some r.
Proof. phase_total. Qed.

Lemma RemoveRemainMarker_total instanceID dimensionName :
  ∀ fuel attempt st,
  0 < fuel → (neo4j.maxRetries - attempt < Z.of_nat fuel)%Z →
  ∃ r, neo4j.RemoveRemainMarker fuel attempt instanceID dimensionName st
       = Some r.
Proof. phase_total. Qed.

End Retry.

Section RetryRuns.

Import boltmock.

Example CloneNodes_succeeds_on_third_attempt :
  (λ r, (r.1, length (neo4j.calls r.2)))
    <$> neo4j.CloneNodes (pool := boltPool) (fmtq := named)
          (retry := threeAttempts) 4 1 "f0a2f3f2" "cpih1dim1aggid" "aggregate"
          (scripted [Some transientErr; Some transientErr; None])
  = Some (None, 3).
Proof. vm_compute. reflexivity. Qed.

Example CloneNodes_gives_up_at_the_ceiling :
  (λ r, (r.1, length (neo4j.calls r.2)))
    <$> neo4j.CloneNodes (pool := boltPool) (fmtq := named)
          (retry := threeAttempts) 4 1 "f0a2f3f2" "cpih1dim1aggid" "aggregate"
          (scripted (replicate 5 (Some transientErr)))
  = Some (Some (driver.Wrapf (behind transientErr) "statement failed: %q"
                  "CloneHierarchyNodes(cpih1dim1aggid,f0a2f3f2,aggregate)"), 3).
Proof. vm_compute. reflexivity. Qed.

(** C3.  SetNumberOfChildren on the Neo4j backend, first attempt, the
    statement failing with an error that is not transient: the phase
    returns the error wrapped with the instance identifier, not with the
    statement that failed.  CloneNodes, failing the same way, returns the
    error wrapped with its statement. *)
Theorem SetNumberOfChildren_error_carries_instance_not_statement :
  let q := neo4j.Sprintf (Formatting := named) neo4j.query.SetNumberOfChildren
             ["f0a2f3f2"; "aggregate"; "f0a2f3f2"; "aggregate"] in
  let returned :=
    fst <$> neo4j.SetNumberOfChildren (pool := boltPool) (fmtq := named)
              (retry := threeAttempts) 4 1 "f0a2f3f2" "aggregate"
              (scripted [Some malformedErr]) in
  returned
  = Some (Some (driver.Wrapf (behind malformedErr) "statement failed: %q"
                  "f0a2f3f2"))
  ∧ returned
    ≠ Some (Some (driver.Wrapf (behind malformedErr) "statement failed: %q" q))
  ∧ fst <$> neo4j.CloneNodes (pool := boltPool) (fmtq := named)
              (retry := threeAttempts) 4 1 "f0a2f3f2" "cpih1dim1aggid"
              "aggregate" (scripted [Some malformedErr])
    = Some (Some (driver.Wrapf (behind malformedErr) "statement failed: %q"
                    (neo4j.Sprintf (Formatting := named)
                       neo4j.query.CloneHierarchyNodes
                       ["cpih1dim1aggid"; "f0a2f3f2"; "aggregate"]))).
Proof.
  intros q returned. repeat split.
  intros Heq. vm_compute in Heq. discriminate Heq.
Qed.

End RetryRuns.

(** ** Looking up the root and an element of a hierarchy *)

Section NeptuneLookup.

Context {B : Type} {pool : neptune.NeptunePool B}.

Implicit Types (st : neptune.store B) (v : neptune.Vertex).

Lemma neptune_GetHierarchyRoot_cases instanceID dimension st st1 vs :
  neptune.getVertices
    (neptune.Sprintf neptune.query.GetHierarchyRoot
       [fmt.Str instanceID; fmt.Str dimension]) st = (inr vs, st1) →
  neptune.GetHierarchyRoot instanceID dimension st
  = match vs with
    | [] => (inl driver.ErrNotFound, st1)
    | [v] => neptune.buildHierarchyNode v instanceID dimension false st1
    | _ :: _ :: _ => (inl driver.ErrMultipleFound, st1)
    end.
Proof.
  intros Hq. unfold neptune.GetHierarchyRoot. rewrite Hq.
  by destruct vs as [|v [|v' vs']].
Qed.

Lemma neptune_GetHierarchyElement_cases instanceID dimension code st st1 vs :
  neptune.getVertices
    (neptune.Sprintf neptune.query.GetHierarchyElement
       [fmt.Str instanceID; fmt.Str dimension; fmt.Str code]) st
  = (inr vs, st1) →
  neptune.GetHierarchyElement instanceID dimension code st
  = match vs with
    | [] => (inl driver.ErrNotFound, st1)
    | [v] => neptune.buildHierarchyNode v instanceID dimension true st1
    | _ :: _ :: _ => (inl driver.ErrMultipleFound, st1)
    end.
Proof.
  intros Hq. unfold neptune.GetHierarchyElement, neptune.getVertex.
  rewrite Hq. by destruct vs as [|v [|v' vs']].
Qed.

(** What a successfully assembled node holds: the children are the
    answer to the children query; the breadcrumbs are the answer to the
    ancestry query when they were wanted, and otherwise there are none
    and no further statement is issued. *)
Lemma neptune_buildHierarchyNode_assembles v instanceID dimension
    (wantBreadcrumbs : bool) st st' res :
  neptune.buildHierarchyNode v instanceID dimension wantBreadcrumbs st
  = (inr res, st') →
  ∃ self childVertices st1,
    neptune.convertVertexToElement v = inr self
    ∧ neptune.getVertices
        (neptune.Sprintf neptune.query.GetChildren
           [fmt.Str instanceID; fmt.Str dimension;
            fmt.Str (models.element_ID self)]) st = (inr childVertices, st1)
    ∧ neptune.convertVertices childVertices = inr (models.Children res)
    ∧ if wantBreadcrumbs then
        ∃ ancestors,
          neptune.getVertices
            (neptune.Sprintf neptune.query.GetAncestry
               [fmt.Str instanceID; fmt.Str dimension;
                fmt.Str (models.element_ID self)]) st1 = (inr ancestors, st')
          ∧ neptune.convertVertices ancestors = inr (models.Breadcrumbs res)
      else models.Breadcrumbs res = [] ∧ st' = st1.
Proof.
  unfold neptune.buildHierarchyNode. intros H.
  destruct (neptune.convertVertexToElement v) as [err|self]; [done|].
  destruct (neptune.getVertices _ st) as [[err|childVertices] st1] eqn:Hc;
    [done|].
  destruct (neptune.convertVertices childVertices) as [err|children] eqn:Hcv;
    [done|].
  exists self, childVertices, st1.
  destruct wantBreadcrumbs.
  - destruct (neptune.getVertices _ st1) as [[err|ancestors] st2] eqn:Ha;
      [done|].
    destruct (neptune.convertVertices ancestors) as [err|crumbs] eqn:Hav;
      [done|].
    inversion H; subst. simpl. repeat split; try done. by exists ancestors.
  - inversion H; subst. simpl. by repeat split.
Qed.

End NeptuneLookup.

Section Neo4jLookup.

Context {B : Type} {bolt : neo4j.BoltPool B} {fmtq : neo4j.Formatting}
        {mappers : neo4j.Mappers}.

Implicit Types (st : neo4j.store B).

Lemma readRows_never_multiple {T} rows final (mapp : option (neo4j.ResultMapper T))
    single index numOfResults (target : T) :
  (neo4j.readRows rows final mapp single index numOfResults target).1
  ≠ Some driver.ErrMultipleFound.
Proof.
  revert index numOfResults target.
  induction rows as [|data rest IH]; intros index numOfResults target.
  - simpl. destruct final; [done|]. by destruct (numOfResults =? 0).
  - cbn [neo4j.readRows].
    destruct (single && (0 <? index)); [done|].
    destruct mapp as [f|]; [|apply IH].
    destruct (f _ target) as [err|target']; [done|apply IH].
Qed.

Lemma ReadWithParams_never_multiple {T} query params
    (mapp : option (neo4j.ResultMapper T)) single (target : T) st :
  (neo4j.ReadWithParams query params mapp single target st).1.1
  ≠ Some driver.ErrMultipleFound.
Proof.
  unfold neo4j.ReadWithParams.
  destruct (neo4j.OpenPool (neo4j.backend st)) as [[err|] b1]; [done|].
  destruct (neo4j.QueryNeo query params b1) as [[err|rows] b2]; [done|].
  pose proof (readRows_never_multiple (neo4j.records rows) (neo4j.final rows)
                mapp single 0 0 target) as Hr.
  by destruct (neo4j.readRows _ _ _ _ _ _ _).
Qed.

Lemma ReadWithParams_no_records {T} query params
    (mapp : option (neo4j.ResultMapper T)) single (target : T) st b1 b2 :
  neo4j.OpenPool (neo4j.backend st) = (None, b1) →
  neo4j.QueryNeo query params b1
  = (inr {| neo4j.records := []; neo4j.final := None |}, b2) →
  neo4j.ReadWithParams query params mapp single target st
  = (Some driver.ErrNotFound, target,
     {| neo4j.backend := b2;
        neo4j.calls := neo4j.calls st ++ [neo4j.QueryNeoCall query params] |}).
Proof.
  intros Hopen Hquery. unfold neo4j.ReadWithParams.
  by rewrite Hopen, Hquery.
Qed.

Lemma queryElements_never_multiple instanceID dimension neoStmt neoArgs st :
  (neo4j.queryElements instanceID dimension neoStmt neoArgs st).1
  ≠ inl driver.ErrMultipleFound.
Proof.
  unfold neo4j.queryElements.
  pose proof (ReadWithParams_never_multiple neoStmt neoArgs
                (Some neo4j.mapper_HierarchyElement) false [] st) as H.
  destruct (neo4j.ReadWithParams _ _ _ _ _ _) as [[[err|] res] st1];
    simpl in *; congruence.
Qed.

Lemma queryResponse_never_multiple instanceID dimension neoStmt neoArgs st :
  (neo4j.queryResponse instanceID dimension neoStmt neoArgs st).1
  ≠ inl driver.ErrMultipleFound.
Proof.
  unfold neo4j.queryResponse.
  pose proof (ReadWithParams_never_multiple neoStmt neoArgs
                (Some neo4j.mapper_Hierarchy) false neo4j.emptyResponse st)
    as H.
  destruct (neo4j.ReadWithParams _ _ _ _ _ _) as [[[err|] res] st1];
    [simpl in *; congruence|].
  unfold neo4j.getChildren.
  pose proof (queryElements_never_multiple instanceID dimension
                (neo4j.Sprintf neo4j.query.GetChildren [instanceID; dimension])
                {["code" := models.ID res]} st1) as Hc.
  destruct (neo4j.queryElements _ _ _ _ st1) as [[err|children] st2]; [|done].
  destruct (driver.is_ErrNotFound err); [done|].
  simpl in *. congruence.
Qed.

(** What a successful read of a node holds: the children are the answer
    to the children query, none when that query finds nothing; nothing
    else is done to the node. *)
Lemma queryResponse_assembles instanceID dimension neoStmt neoArgs st st' res :
  neo4j.queryResponse instanceID dimension neoStmt neoArgs st = (inr res, st') →
  ∃ read st1,
    neo4j.ReadWithParams neoStmt neoArgs (Some neo4j.mapper_Hierarchy) false
      neo4j.emptyResponse st = (None, read, st1)
    ∧ res = neo4j.setChildren read (models.Children res)
    ∧ (neo4j.getChildren instanceID dimension (models.ID read) st1
       = (inr (models.Children res), st')
       ∨ neo4j.getChildren instanceID dimension (models.ID read) st1
         = (inl driver.ErrNotFound, st')
         ∧ models.Children res = []).
Proof.
  unfold neo4j.queryResponse. intros H.
  destruct (neo4j.ReadWithParams _ _ _ _ _ _) as [[[err|] read] st1]; [done|].
  exists read, st1.
  destruct (neo4j.getChildren _ _ _ st1) as [[err|children] st2] eqn:Hc.
  - destruct err; simpl in H; try done.
    inversion H; subst. simpl. repeat split. by right.
  - inversion H; subst. simpl. repeat split. by left.
Qed.

End Neo4jLookup.

Section Lookups.

Context {B : Type} {pool : neptune.NeptunePool B}.
Context {B' : Type} {bolt : neo4j.BoltPool B'} {fmtq : neo4j.Formatting}
        {mappers : neo4j.Mappers}.


End Lookups.

Section LookupRuns.

Import boltmock.



End LookupRuns.

(** ** SetHasData and CloneRelationships on a graph *)

Section OnAGraph.

Import graphstore.

Context {tr : Traversal}.

Implicit Types (g : Graph) (v : neptune.Vertex) (db : DB).

Lemma setProperty_twice key x v :
  setProperty key x (setProperty key x v) = setProperty key x v.
Proof. unfold setProperty. simpl. by rewrite insert_insert_eq. Qed.

Lemma hasLabel_setProperty label key x v :
  hasLabel label (setProperty key x v) = hasLabel label v.
Proof. reflexivity. Qed.

Lemma hasCodeWithin_setHasData literal x v :
  hasCodeWithin literal (setProperty "hasData" x v) = hasCodeWithin literal v.
Proof.
  unfold hasCodeWithin, setProperty. simpl.
  by rewrite lookup_insert_ne.
Qed.

Lemma setHasData_idempotent instanceID dimensionName literal g :
  setHasData instanceID dimensionName literal
    (setHasData instanceID dimensionName literal g)
  = setHasData instanceID dimensionName literal g.
Proof.
  unfold setHasData. simpl. f_equal.
  rewrite <- list_fmap_compose. apply list_fmap_ext.
  intros i v _. simpl.
  destruct (hasLabel _ v && hasCodeWithin literal v) eqn:Hsel.
  - rewrite hasLabel_setProperty, hasCodeWithin_setHasData, Hsel.
    apply setProperty_twice.
  - by rewrite Hsel.
Qed.

Lemma codesWithData_setHasData instanceID dimensionName i d literal g :
  codesWithData instanceID dimensionName (setHasData i d literal g)
  = codesWithData instanceID dimensionName g.
Proof.
  unfold codesWithData, setHasData. simpl.
  induction (vertices g) as [|v vs IH]; [done|].
  rewrite fmap_cons. cbn [omap list_omap]. rewrite IH.
  destruct (hasLabel (hierarchyLabel i d) v && hasCodeWithin literal v);
    [|done].
  rewrite hasLabel_setProperty. unfold setProperty at 1. simpl.
  by rewrite lookup_insert_ne.
Qed.

(** A call either fails with the scripted fault and changes nothing, or
    runs on the graph. *)
Lemma answer_cases {A} (run : Graph → (neptune.error + A) * Graph) db :
  (∃ err, (answer run db).1 = inl err ∧ graph (answer run db).2 = graph db)
  ∨ (answer run db).1 = (run (graph db)).1
    ∧ graph (answer run db).2 = (run (graph db)).2.
Proof.
  unfold answer. destruct (faults db) as [|[err|] rest].
  - right. by destruct (run (graph db)).
  - left. by exists err.
  - right. by destruct (run (graph db)).
Qed.

(** What SetHasData leaves of the graph: when it returns no error, the
    graph with the flag set for the codes that have data; otherwise the
    graph as it was. *)
Lemma SetHasData_graph attempt instanceID dimensionName
    (st : neptune.store DB) :
  let r := neptune.SetHasData (pool := graphPool) attempt instanceID dimensionName st in
  let g := graph (neptune.backend st) in
  let literal :=
    "['" +:+ strings.Join (codesWithData instanceID dimensionName g) "','"
    +:+ "']" in
  (r.1 = None →
   graph (neptune.backend r.2) = setHasData instanceID dimensionName literal g)
  ∧ (graph (neptune.backend r.2) = g
     ∨ graph (neptune.backend r.2)
       = setHasData instanceID dimensionName literal g).
Proof.
  intros r g literal. subst r.
  unfold neptune.SetHasData, neptune.getStringList, neptune.exec, neptune.issue.
  cbn [neptune.GetStringList neptune.Execute graphPool neptune.backend].
  destruct (answer_cases
              (getStringList
                 (neptune.Sprintf neptune.query.GetCodesWithData
                    [fmt.Str instanceID; fmt.Str dimensionName]))
              (neptune.backend st)) as [(err & He & Hg)|[Hr Hg]];
    destruct (answer _ (neptune.backend st)) as [r1 db1]; simpl in *; subst.
  { split; [done | by left]. }
  set (execStmt := neptune.Sprintf neptune.query.SetHasData _).
  destruct (answer_cases (execute execStmt) db1) as [(err & He & Hg')|[Hr' Hg']];
    destruct (answer _ db1) as [r2 db2]; simpl in *; subst.
  { cbn [fst snd neptune.backend]. rewrite Hg', Hg.
    split; [done | by left]. }
  cbn [fst snd neptune.backend]. rewrite Hg', Hg.
  split; [done | by right].
Qed.


End OnAGraph.

Example SetHasData_marks_the_observed_code :
  graphstore.hasDataFlags "i" "agg"
    (graphstore.graph
       (neptune.backend
          (neptune.SetHasData (pool := graphstore.graphPool (tr := internal.quoted))
             1 "i" "agg" (internal.scenarioDB [])).2))
  = [("clone--S90401", Some (neptune.VBool true));
     ("clone--S90402", Some (neptune.VBool false));
     ("clone--G90400", Some (neptune.VBool false));
     ("clone--T90000", Some (neptune.VBool false));
     ("clone--A0", Some (neptune.VBool false))].
Proof. vm_compute. reflexivity. Qed.


Section Relationships.

Import graphstore.

Context {tr : Traversal}.

Implicit Types (g : Graph) (db : DB).

Lemma cloneMarker_removeCloneMarkers instanceID dimensionName g label e :
  cloneMarker (removeCloneMarkers instanceID dimensionName g) label e
  = cloneMarker g label e.
Proof. reflexivity. Qed.

Lemma removeCloneMarkers_leaves_none instanceID dimensionName g e :
  In e (edges (removeCloneMarkers instanceID dimensionName g)) →
  cloneMarker (removeCloneMarkers instanceID dimensionName g)
    (hierarchyLabel instanceID dimensionName) e = false.
Proof.
  rewrite cloneMarker_removeCloneMarkers. unfold removeCloneMarkers. simpl.
  intros [_ Hkeep]%filter_In. by apply negb_true_iff.
Qed.

Lemma filter_all {A} (f : A → bool) (l : list A) :
  (∀ x, In x l → f x = true) → List.filter f l = l.
Proof.
  induction l as [|x l IH]; intros Hall; [done|].
  simpl. rewrite (Hall x) by (by left).
  f_equal. apply IH. intros y Hy. apply Hall. by right.
Qed.

Lemma removeCloneMarkers_idempotent instanceID dimensionName g :
  removeCloneMarkers instanceID dimensionName
    (removeCloneMarkers instanceID dimensionName g)
  = removeCloneMarkers instanceID dimensionName g.
Proof.
  unfold removeCloneMarkers at 1. rewrite filter_all; [reflexivity|].
  intros e He. apply negb_true_iff.
  by apply removeCloneMarkers_leaves_none.
Qed.

(** What RemoveCloneEdges leaves of the graph. *)
Lemma RemoveCloneEdges_graph attempt instanceID dimensionName
    (st : neptune.store DB) :
  let r := neptune.RemoveCloneEdges (pool := graphPool) attempt instanceID
             dimensionName st in
  let g := graph (neptune.backend st) in
  (r.1 = None →
   graph (neptune.backend r.2) = removeCloneMarkers instanceID dimensionName g
   ∧ neptune.calls r.2
     = neptune.calls st
       ++ [neptune.ExecuteCall
             (neptune.Sprintf neptune.query.RemoveCloneMarkers
                [fmt.Str instanceID; fmt.Str dimensionName])])
  ∧ (graph (neptune.backend r.2) = g
     ∨ graph (neptune.backend r.2)
       = removeCloneMarkers instanceID dimensionName g).
Proof.
  intros r g. subst r.
  unfold neptune.RemoveCloneEdges, neptune.exec, neptune.issue.
  cbn [neptune.Execute graphPool].
  set (stmt := neptune.Sprintf neptune.query.RemoveCloneMarkers _).
  destruct (answer_cases (execute stmt) (neptune.backend st))
    as [(err & He & Hg)|[Hr Hg]];
    destruct (answer _ (neptune.backend st)) as [r1 db1]; simpl in *; subst.
  - split; [done | by left].
  - cbn [fst snd neptune.backend neptune.calls]. rewrite Hg.
    split; [done | by right].
Qed.

(** C10.  When the bulk CloneRelationships of the Neptune driver returns
    without error, it has issued the relationship statement and then the
    statement that removes the clone markers; no clone_of edge is left on
    a node of the instance hierarchy, and a RemoveCloneEdges that follows
    does not change the graph. *)
Theorem CloneRelationships_removes_clone_markers attempt
    instanceID codeListID dimensionName (st : neptune.store DB) :
  let r := neptune.CloneRelationships (pool := graphPool) attempt instanceID
             codeListID dimensionName st in
  r.1 = None →
  neptune.calls r.2
  = neptune.calls st
    ++ [neptune.GetECall
          (neptune.Sprintf neptune.query.CloneHierarchyRelationships
             [fmt.Str codeListID; fmt.Str instanceID; fmt.Str dimensionName;
              fmt.Str instanceID; fmt.Str dimensionName]);
        neptune.ExecuteCall
          (neptune.Sprintf neptune.query.RemoveCloneMarkers
             [fmt.Str instanceID; fmt.Str dimensionName])]
  ∧ (∀ e, In e (edges (graph (neptune.backend r.2))) →
          cloneMarker (graph (neptune.backend r.2))
            (hierarchyLabel instanceID dimensionName) e = false)
  ∧ graph (neptune.backend
             (neptune.RemoveCloneEdges (pool := graphPool) attempt instanceID
                dimensionName r.2).2)
    = graph (neptune.backend r.2).
Proof.
  intros r Hok. subst r. revert Hok.
  unfold neptune.CloneRelationships.
  destruct (neptune.getEdges _ st) as [[err|new] st1] eqn:Hedges; [done|].
  intros Hok.
  destruct (RemoveCloneEdges_graph attempt instanceID dimensionName st1)
    as [Hremoved _].
  destruct (Hremoved Hok) as [Hgraph Hcalls].
  assert (neptune.calls st1
          = neptune.calls st
            ++ [neptune.GetECall
                  (neptune.Sprintf neptune.query.CloneHierarchyRelationships
                     [fmt.Str codeListID; fmt.Str instanceID;
                      fmt.Str dimensionName; fmt.Str instanceID;
                      fmt.Str dimensionName])]) as Hfirst.
  { unfold neptune.getEdges, neptune.issue in Hedges.
    destruct (neptune.GetE _ _) as [r1 b1]. by inversion Hedges. }
  repeat split.
  - rewrite Hcalls, Hfirst. by rewrite <- app_assoc.
  - intros e He. rewrite Hgraph in He |- *.
    by apply removeCloneMarkers_leaves_none.
  - destruct (RemoveCloneEdges_graph attempt instanceID dimensionName
                (neptune.RemoveCloneEdges (pool := graphPool) attempt instanceID
                   dimensionName st1).2) as [_ [Hsame|Hagain]]; [done|].
    rewrite Hagain, Hgraph. apply removeCloneMarkers_idempotent.
Qed.

End Relationships.

Example CloneRelationships_on_the_scenario :
  let r := neptune.CloneRelationships
             (pool := graphstore.graphPool (tr := internal.quoted))
             1 "i" "cl" "agg" (internal.scenarioDB []) in
  r.1 = None
  ∧ (λ e, (neptune.elabel e, neptune.eout e, neptune.ein e))
      <$> graphstore.edges (graphstore.graph (neptune.backend r.2))
    = [("hasParent", "cl--S90401", "cl--G90400");
       ("hasParent", "cl--S90402", "cl--G90400");
       ("hasParent", "cl--G90400", "cl--T90000");
       ("hasParent", "cl--T90000", "cl--A0");
       ("hasParent", "clone--S90401", "clone--G90400");
       ("hasParent", "clone--S90402", "clone--G90400");
       ("hasParent", "clone--G90400", "clone--T90000");
       ("hasParent", "clone--T90000", "clone--A0")].
Proof. split; vm_compute; reflexivity. Qed.

Lemma CloneRelationships_removes_clone_markers_witness :
  let st := internal.scenarioDB [] in
  let r := neptune.CloneRelationships
             (pool := graphstore.graphPool (tr := internal.quoted))
             1 "i" "cl" "agg" st in
  r.1 = None
  ∧ length (neptune.calls r.2) = 2
  ∧ ∀ e, In e (graphstore.edges (graphstore.graph (neptune.backend r.2))) →
         graphstore.cloneMarker (graphstore.graph (neptune.backend r.2))
           (graphstore.hierarchyLabel "i" "agg") e = false.
Proof.
  intros st r.
  assert (Hok : r.1 = None) by (vm_compute; reflexivity).
  split; [exact Hok|].
  destruct (CloneRelationships_removes_clone_markers (tr := internal.quoted)
              1 "i" "cl" "agg" st Hok) as (Hcalls & Hnone & _).
  split; [|exact Hnone].
  fold r in Hcalls. rewrite Hcalls. reflexivity.
Defined.

(** ** Responses that do not decode *)

Section Decoding.

Context {rt : GoRuntime} {B : Type} {pool : neptune.NeptunePool B}
        {codec : neptune.Graphson}.

Implicit Types (st : neptune.store B) (val item : neptune.RawMessage).
Implicit Types (m : gmap string neptune.RawMessage).

Lemma getNodeIdCodeFromMap_missing m :
  m !! "node_id" = None ∨ m !! "node_code" = None →
  neptune.getNodeIdCodeFromMap m = inl driver.ErrNotFound.
Proof.
  unfold neptune.getNodeIdCodeFromMap. intros [Hid|Hcode].
  - by rewrite Hid.
  - rewrite Hcode. by destruct (m !! "node_id").
Qed.

Lemma getNodeIdCodeFromMap_undecodable m rawNodeId rawCode err :
  m !! "node_id" = Some rawNodeId → m !! "node_code" = Some rawCode →
  neptune.json_Unmarshal rawNodeId = inl err
  ∨ (∃ nodeID, neptune.json_Unmarshal rawNodeId = inr nodeID)
    ∧ neptune.json_Unmarshal rawCode = inl err →
  neptune.getNodeIdCodeFromMap m = inl err.
Proof.
  unfold neptune.getNodeIdCodeFromMap. intros -> ->.
  intros [->|[[nodeID ->] ->]]; reflexivity.
Qed.

Lemma decodeItems_malformed items item acc :
  item ∈ items → neptune.malformed item = true →
  ∃ err, neptune.decodeItems items acc = inl err.
Proof.
  intros Hin Hbad. revert acc.
  induction items as [|val rest IH]; intros acc; [by apply elem_of_nil in Hin|].
  cbn [neptune.decodeItems].
  destruct (neptune.DeserializeMapFromBytes val) as [err|m] eqn:Hmap;
    [by eexists|].
  destruct (neptune.getNodeIdCodeFromMap m) as [err|[nodeId code]] eqn:Hget;
    [by eexists|].
  apply elem_of_cons in Hin as [->|Hin]; [|by apply IH].
  exfalso. unfold neptune.malformed in Hbad. rewrite Hmap in Hbad.
  unfold neptune.getNodeIdCodeFromMap in Hget.
  destruct (m !! "node_id") as [rawNodeId|]; [|done].
  destruct (m !! "node_code") as [rawCode|]; [|done].
  destruct (neptune.json_Unmarshal rawNodeId); [done|].
  by destruct (neptune.json_Unmarshal rawCode).
Qed.

Lemma decodeResponses_malformed (res : list neptune.Response) r items item acc :
  r ∈ res → neptune.DeserializeListFromBytes (neptune.Data r) = inr items →
  item ∈ items → neptune.malformed item = true →
  ∃ err, neptune.decodeResponses res acc = inl err.
Proof.
  intros Hin Hlist Hitem Hbad. revert acc.
  induction res as [|result rest IH]; intros acc; [by apply elem_of_nil in Hin|].
  cbn [neptune.decodeResponses].
  destruct (neptune.DeserializeListFromBytes (neptune.Data result))
    as [err|idCodeMap] eqn:Hl; [by eexists|].
  apply elem_of_cons in Hin as [->|Hin].
  - rewrite Hlist in Hl. inversion Hl; subst.
    destruct (decodeItems_malformed idCodeMap item acc Hitem Hbad) as [err ->].
    by eexists.
  - destruct (neptune.decodeItems idCodeMap acc) as [err|acc']; [by eexists|].
    by apply IH.
Qed.

Lemma processBatch_one_statement codeListID ancestries chunk st :
  neptune.calls
    (neptune.doGetGenericHierarchyNodeIDs_processBatch codeListID ancestries
       chunk st).2
  = neptune.calls st
    ++ [neptune.ExecuteCall
          (neptune.genericHierarchyStmt codeListID ancestries chunk)].
Proof.
  unfold neptune.doGetGenericHierarchyNodeIDs_processBatch,
    neptune.genericHierarchyStmt, neptune.exec, neptune.issue.
  destruct ancestries;
    by destruct (neptune.Execute _ _) as [[err|res] b1].
Qed.

Lemma runBatches_statements codeListID ancestries chunks result errs st :
  neptune.calls
    (neptune.runBatches
       (neptune.doGetGenericHierarchyNodeIDs_processBatch codeListID ancestries)
       chunks result errs st).2
  = neptune.calls st
    ++ ((λ chunk, neptune.ExecuteCall
                    (neptune.genericHierarchyStmt codeListID ancestries chunk))
          <$> chunks).
Proof.
  revert result errs st.
  induction chunks as [|chunk rest IH]; intros result errs st.
  - simpl. by rewrite app_nil_r.
  - cbn [neptune.runBatches].
    pose proof (processBatch_one_statement codeListID ancestries chunk st) as H.
    destruct (neptune.doGetGenericHierarchyNodeIDs_processBatch _ _ chunk st)
      as [[err|res] st1]; simpl in H;
      rewrite IH, H, fmap_cons; by rewrite <- app_assoc.
Qed.

Lemma elem_of_errorsOf err (o : list (neptune.error + gmap string string)) :
  err ∈ neptune.errorsOf o ↔ inl err ∈ o.
Proof.
  unfold neptune.errorsOf. rewrite list_elem_of_omap. split.
  - intros ([e|res] & Hin & Heq); [|done]. by inversion Heq; subst.
  - intros Hin. by exists (inl err).
Qed.


End Decoding.

Section DecodingRuns.

Import internal.

Example resolver_on_a_record_without_node_id :
  let r := neptune.GetGenericHierarchyNodeIDs (rt := sequential)
             (pool := mockPool) (codec := lineCodec) testDB 1 "cpih1dim1aggid"
             ["cpih1dim1S90401"; "cpih1dim1S90402"] codeOnly in
  r.1 = (∅, Some driver.ErrNotFound) ∧ length (neptune.calls r.2) = 1.
Proof. split; vm_compute; reflexivity. Qed.


End DecodingRuns.

(** ** Runs of the Neptune driver against the pool mock *)

Section NeptuneRuns.

Import internal.

Example HierarchyExists_on_a_failing_pool :
  neptune.HierarchyExists (pool := mockPool) testInstanceID testDimensionName
    (mockDB {| ExecuteFunc := unset;
               GetFunc := ReturnMalformedNilInterfaceRequestErr;
               GetStringListFunc := unset; GetEFunc := unset;
               GetCountFunc := unset |})
  = (false, Some NonTransientErr,
     {| neptune.backend :=
          {| ExecuteFunc := unset;
             GetFunc := ReturnMalformedNilInterfaceRequestErr;
             GetStringListFunc := unset; GetEFunc := unset;
             GetCountFunc := unset |};
        neptune.calls :=
          [neptune.GetCall
             (neptune.Sprintf neptune.query.HierarchyExists
                [fmt.Str testInstanceID; fmt.Str testDimensionName])] |}).
Proof. reflexivity. Qed.

Example CloneNodesFromIDs_issues_one_statement_for_two_ids :
  let r := neptune.CloneNodesFromIDs (rt := sequential) (pool := mockPool)
             testDB testAttempt testInstanceID testCodeListID testDimensionName
             testIds true (mockDB accepting) in
  r.1 = None
  ∧ neptune.calls r.2
    = [neptune.ExecuteCall
         (neptune.Sprintf neptune.query.CloneHierarchyNodesFromIDs
            [fmt.Str "'cpih1dim1aggid--cpih1dim1S90401','cpih1dim1aggid--cpih1dim1S90402'";
             fmt.Str testInstanceID; fmt.Str testDimensionName; fmt.Bool true;
             fmt.Str testCodeListID])].
Proof. split; vm_compute; reflexivity. Qed.

Example CloneRelationshipsFromIDs_issues_three_statements_for_five_ids :
  let r := neptune.CloneRelationshipsFromIDs (rt := sequential)
             (pool := mockPool) testDB testAttempt testInstanceID
             testDimensionName testAllIds (mockDB accepting) in
  r.1 = None ∧ length (neptune.calls r.2) = 3.
Proof. split; vm_compute; reflexivity. Qed.

Example SetHasData_formats_the_codes_with_data :
  neptune.calls
    (neptune.SetHasData (pool := mockPool) 1 "instanceID" "dimensionName"
       (mockDB accepting)).2
  = [neptune.GetStringListCall
       (neptune.Sprintf neptune.query.GetCodesWithData
          [fmt.Str "instanceID"; fmt.Str "dimensionName"]);
     neptune.ExecuteCall
       (neptune.Sprintf neptune.query.SetHasData
          [fmt.Str "instanceID"; fmt.Str "dimensionName";
           fmt.Str "['cpih1dim1S90401','cpih1dim1S90402']"])].
Proof. reflexivity. Qed.

(** Five identifiers in batches of two, the batch holding T90000 being
    rejected: the phase returns that batch's error, and the other two
    batches have run all the same. *)
Example SetNumberOfChildrenFromIDs_returns_the_failed_batch :
  let r := neptune.SetNumberOfChildrenFromIDs (rt := sequential)
             (pool := mockPool) testDB testAttempt testAllIds
             (mockDB (rejecting "T90000")) in
  r.1 = Some NonTransientErr ∧ length (neptune.calls r.2) = 3.
Proof. split; vm_compute; reflexivity. Qed.

End NeptuneRuns.

(** ** The bolt driver's Read *)

Section ReadFacts.

Import neo4j.

Context {B : Type} {pool : BoltPool B}.

Lemma readRows_single_second_record {T} (r1 r2 : row) (rest : list row)
    (final : option boltError) (f : ResultMapper T) (target : T) :
  readRows (r1 :: r2 :: rest) final (Some f) true 0 0 target
  = match f {| Data := r1; Index := 0 |} target with
    | inl err =>
        (Some (driver.WithMessage err "mapResult returned an error"), target)
    | inr target' => (None, target')
    end.
Proof. simpl. destruct (f _ target); reflexivity. Qed.

(** X2.  Read with single set does not fail on a result set of more than
    one record: the error it builds for "non unique results" wraps a nil
    error, which is nil.  The read ends at the second record, whatever
    follows it; what is returned is what the mapper made of the first
    record, or the mapper's error. *)
Theorem Read_single_keeps_the_first_record {T} (query : string)
    (f : ResultMapper T) (target : T) (st : store B) (b1 b2 : B)
    (rows : Rows) (r1 r2 : row) (rest : list row) :
  OpenPool (backend st) = (None, b1) →
  QueryNeo query ∅ b1 = (inr rows, b2) →
  records rows = r1 :: r2 :: rest →
  Read query (Some f) true target st
  = (match f {| Data := r1; Index := 0 |} target with
     | inl err =>
         (Some (driver.WithMessage err "mapResult returned an error"), target)
     | inr target' => (None, target')
     end,
     {| backend := b2; calls := calls st ++ [QueryNeoCall query ∅] |}).
Proof.
  intros Hopen Hquery Hrecords. unfold Read.
  rewrite Hopen, Hquery, Hrecords, readRows_single_second_record.
  destruct (f _ target); reflexivity.
Qed.

Lemma readRows_total_mapper {T} (g : Result → T → T) (rows : list row)
    (index numOfResults : nat) (target : T) :
  readRows rows None (Some (λ r t, inr (g r t))) false index numOfResults target
  = (if (numOfResults + length rows =? 0)%nat then Some driver.ErrNotFound
     else None,
     foldl (λ t r, g r t) target
       (imap (λ i data, {| Data := data; Index := index + i |}) rows)).
Proof.
  revert index numOfResults target.
  induction rows as [|data rest IH]; intros index numOfResults target.
  - simpl. rewrite Nat.add_0_r. destruct (numOfResults =? 0); reflexivity.
  - cbn [readRows andb]. rewrite IH. cbn [imap foldl length].
    rewrite Nat.add_0_r.
    replace (S numOfResults + length rest) with (numOfResults + S (length rest))
      by lia.
    f_equal. f_equal. apply imap_ext. intros i x _. simpl.
    f_equal. lia.
Qed.

(** X3.  Read without single hands every record to the mapper, in the
    order of the cursor and numbered from 0, each call working on what
    the previous one left; with a mapper that does not fail and a cursor
    that ends normally the only error is ErrNotFound, for a result set
    without records. *)
Theorem Read_maps_every_record_in_order {T} (query : string)
    (g : Result → T → T) (target : T) (st : store B) (b1 b2 : B)
    (rows : Rows) :
  OpenPool (backend st) = (None, b1) →
  QueryNeo query ∅ b1 = (inr rows, b2) →
  final rows = None →
  Read query (Some (λ r t, inr (g r t))) false target st
  = (match records rows with
     | [] => Some driver.ErrNotFound
     | _ :: _ => None
     end,
     foldl (λ t r, g r t) target
       (imap (λ i data, {| Data := data; Index := i |}) (records rows)),
     {| backend := b2; calls := calls st ++ [QueryNeoCall query ∅] |}).
Proof.
  intros Hopen Hquery Hfinal. unfold Read.
  rewrite Hopen, Hquery, Hfinal, readRows_total_mapper.
  destruct (records rows); reflexivity.
Qed.

Lemma readRows_ErrNotFound {T} (rows : list row) (final : option boltError)
    (mapp : option (ResultMapper T)) (single : bool)
    (index numOfResults : nat) (target : T) :
  (readRows rows final mapp single index numOfResults target).1
  = Some driver.ErrNotFound
  ↔ rows = [] ∧ final = None ∧ numOfResults = 0.
Proof.
  revert index numOfResults target.
  induction rows as [|data rest IH]; intros index numOfResults target.
  - simpl. destruct final as [e|].
    + simpl. split; [discriminate | intros (_ & ? & _); discriminate].
    + destruct (Nat.eqb_spec numOfResults 0) as [->|Hn]; simpl.
      * split; auto.
      * split; [discriminate | intros (_ & _ & ?); contradiction].
  - cbn [readRows].
    destruct (single && (0 <? index)%nat).
    + simpl. split; [discriminate | intros (? & _); discriminate].
    + destruct mapp as [f|].
      * destruct (f _ target) as [err|target'].
        -- simpl. split; [discriminate | intros (? & _); discriminate].
        -- rewrite IH. split; intros (? & ? & ?); discriminate.
      * rewrite IH. split; intros (? & ? & ?); discriminate.
Qed.

Lemma Read_ErrNotFound {T} (query : string) (mapp : option (ResultMapper T))
    (single : bool) (target : T) (st : store B) :
  (Read query mapp single target st).1.1 = Some driver.ErrNotFound
  ↔ ∃ b1 b2 rows,
      OpenPool (backend st) = (None, b1)
      ∧ QueryNeo query ∅ b1 = (inr rows, b2)
      ∧ records rows = [] ∧ final rows = None.
Proof.
  unfold Read.
  destruct (OpenPool (backend st)) as [[e|] b1] eqn:Hopen.
  { simpl. split; [discriminate|].
    intros (? & ? & ? & ? & _); discriminate. }
  destruct (QueryNeo query ∅ b1) as [[e|rows] b2] eqn:Hquery.
  { simpl. split; [discriminate|].
    intros (b1' & ? & ? & Hb & Hq & _).
    injection Hb as <-. rewrite Hquery in Hq. discriminate. }
  destruct (readRows (records rows) (final rows) mapp single 0 0 target)
    as [err target'] eqn:Hread.
  simpl.
  pose proof (readRows_ErrNotFound (records rows) (final rows) mapp single
                0 0 target) as Hiff.
  rewrite Hread in Hiff. simpl in Hiff. rewrite Hiff. split.
  - intros (Hrec & Hfin & _). by exists b1, b2, rows.
  - intros (b1' & b2' & rows' & Hb & Hq & Hrec & Hfin).
    injection Hb as <-. rewrite Hquery in Hq. injection Hq as <- <-. auto.
Qed.

(** X4.  ErrNotFound from Read means an empty result set and nothing
    else: it is returned exactly when a connection was opened, the query
    was accepted and the cursor ended normally without a record.
    Failures of the pool, of the query, of the cursor or of the mapper
    are never reported as ErrNotFound, with or without single and with
    or without a mapper.  (An error of the bolt library is a value of
    that library, [fromBolt], and so is not ErrNotFound itself.) *)
Theorem Read_ErrNotFound_is_the_empty_result {T} (query : string)
    (mapp : option (ResultMapper T)) (single : bool) (target : T)
    (st : store B) :
  (Read query mapp single target st).1.1 = Some driver.ErrNotFound
  ↔ ∃ b1 b2 rows,
      OpenPool (backend st) = (None, b1)
      ∧ QueryNeo query ∅ b1 = (inr rows, b2)
      ∧ records rows = [] ∧ final rows = None.
Proof. apply Read_ErrNotFound. Qed.

End ReadFacts.

Section ReadRuns.

Import boltmock.

Lemma Read_single_keeps_the_first_record_witness :
  neo4j.Read (pool := boltPool) "MATCH (n) RETURN n"
    (Some doubles.firstField) true []
    (doubles.returning [["first"]; ["second"]; ["third"]])
  = (None, ["first"],
     {| neo4j.backend := neo4j.backend (doubles.returning
                           [["first"]; ["second"]; ["third"]]);
        neo4j.calls := [neo4j.QueryNeoCall "MATCH (n) RETURN n" ∅] |}).
Proof.
  exact (Read_single_keeps_the_first_record (pool := boltPool)
           "MATCH (n) RETURN n" doubles.firstField []
           (doubles.returning [["first"]; ["second"]; ["third"]]) _ _
           {| neo4j.records := [["first"]; ["second"]; ["third"]];
              neo4j.final := None |}
           ["first"] ["second"] [["third"]] eq_refl eq_refl eq_refl).
Defined.

Lemma Read_maps_every_record_in_order_witness :
  neo4j.Read (pool := boltPool) "MATCH (n) RETURN n"
    (Some (λ r l, inr (l ++ [(neo4j.Index r, neo4j.Data r)]))) false []
    (doubles.returning [["first"]; ["second"]])
  = (None, [(0, ["first"]); (1, ["second"])],
     {| neo4j.backend := neo4j.backend (doubles.returning
                           [["first"]; ["second"]]);
        neo4j.calls := [neo4j.QueryNeoCall "MATCH (n) RETURN n" ∅] |}).
Proof.
  exact (Read_maps_every_record_in_order (pool := boltPool)
           "MATCH (n) RETURN n"
           (λ r l, l ++ [(neo4j.Index r, neo4j.Data r)]) []
           (doubles.returning [["first"]; ["second"]]) _ _
           {| neo4j.records := [["first"]; ["second"]];
              neo4j.final := None |}
           eq_refl eq_refl eq_refl).
Defined.

End ReadRuns.

(** ** The readers built on Read and Count *)

Section ReaderFacts.

Import neo4j.

Context {B : Type} {pool : BoltPool B} {fmtq : Formatting}
        {codelist : neo4jreader.CodelistMapper} {fields : neo4jdriver.Fields}.

(** X5.  GetHierarchyCodelist checks that the hierarchy exists: it
    returns ErrNotFound exactly when the HierarchyExists statement of the
    instance and dimension is answered without a record.  It never
    returns an identifier together with an error: whatever the mapper
    had written before a failure is dropped. *)
Theorem GetHierarchyCodelist_checks_existence (instanceID dimension : string)
    (st : store B) :
  let r := neo4jreader.GetHierarchyCodelist instanceID dimension st in
  (r.1.2 = Some driver.ErrNotFound
   ↔ ∃ b1 b2 rows,
       OpenPool (backend st) = (None, b1)
       ∧ QueryNeo (Sprintf query.HierarchyExists [instanceID; dimension]) ∅ b1
         = (inr rows, b2)
       ∧ records rows = [] ∧ final rows = None)
  ∧ (r.1.2 = None ∨ r.1.1 = "").
Proof.
  intros r. subst r. unfold neo4jreader.GetHierarchyCodelist.
  rewrite <- (Read_ErrNotFound _ (Some neo4jreader.mapper_HierarchyCodelist)
                false "" st).
  destruct (Read _ _ false "" st) as [[[err|] codelistID] st1]; simpl.
  - split; [reflexivity | by right].
  - split; [reflexivity | by left].
Qed.


End ReaderFacts.

(** ** The code list queries *)

Section CodeListFacts.

Import neo4j.

Lemma max_from_bounds (input : list Z) (start : Z) :
  (start ≤ codelist.max_from input start)%Z
  ∧ Forall (λ value, (value ≤ codelist.max_from input start)%Z) input
  ∧ (codelist.max_from input start = start
     ∨ codelist.max_from input start ∈ input).
Proof.
  revert start. induction input as [|value rest IH]; intros start.
  - simpl. split; [lia|]. split; [constructor | by left].
  - cbn [codelist.max_from].
    destruct (IH (if (value >? start)%Z then value else start))
      as (Hstart & Hall & Hin).
    destruct (Z.gtb_spec value start) as [Hgt|Hle].
    + split; [lia|]. split; [by constructor|].
      right. destruct Hin as [->|Hin]; [left | by right].
    + split; [lia|]. split; [constructor; [lia | done]|].
      destruct Hin as [Hin|Hin]; [by left | right; by right].
Qed.

(** X1.  max, which gives a dataset edition its latest version, returns
    the least number that is at least 0 and at least every input: it is
    never negative, it is an upper bound of the input, and it is 0 or
    one of the inputs.  For an empty input, and for an input of negative
    numbers only, that is 0 and not an element of the input. *)
Theorem max_is_the_least_bound_from_zero (input : list Z) :
  (0 ≤ codelist.max input)%Z
  ∧ Forall (λ value, (value ≤ codelist.max input)%Z) input
  ∧ (codelist.max input = 0%Z ∨ codelist.max input ∈ input).
Proof. apply max_from_bounds. Qed.

Lemma fmap_range_fst `{ranging : codelist.GoRange} {A C : Type}
    (f : string * A → C) (key : C → string) (m : gmap string A) :
  codelist.fairRange ranging →
  (∀ entry, key (f entry) = entry.1) →
  key <$> (f <$> codelist.rangeOver m) ≡ₚ (map_to_list m).*1.
Proof.
  intros Hfair Hkey. rewrite <- list_fmap_compose.
  replace (key ∘ f <$> codelist.rangeOver m) with (codelist.rangeOver m).*1.
  - by rewrite (Hfair A m).
  - apply list_fmap_ext. intros i entry _. symmetry. apply Hkey.
Qed.

Lemma elem_of_rangeOver `{ranging : codelist.GoRange} {A : Type}
    (m : gmap string A) (entry : string * A) :
  codelist.fairRange ranging →
  entry ∈ codelist.rangeOver m → m !! entry.1 = Some entry.2.
Proof.
  intros Hfair Hin. rewrite (Hfair A m) in Hin.
  destruct entry as [k v]. by apply elem_of_map_to_list in Hin.
Qed.

(** X8.  The response GetCodeDatasets assembles from what the mapper
    collected: whatever order the ranges take, it lists every collected
    dataset once, under its identifier and with its dimension label,
    and for each dataset every collected edition once, each with the
    code list asked for and, as latest version, the max of the
    edition's versions, which is at least 0 and at least every one of
    them. *)
Theorem GetCodeDatasets_lists_each_dataset_and_edition_once
    `{ranging : codelist.GoRange} (codeListID : string)
    (datasets : gmap string codelist.DatasetData) :
  codelist.fairRange ranging →
  codelist.dataset_ID <$> codelist.datasetItems codeListID datasets
    ≡ₚ (map_to_list datasets).*1
  ∧ Forall (λ dataset,
      ∃ data,
        datasets !! codelist.dataset_ID dataset = Some data
        ∧ codelist.dataset_DimensionLabel dataset
          = codelist.data_DimensionLabel data
        ∧ codelist.edition_ID <$> codelist.dataset_Editions dataset
            ≡ₚ (map_to_list (codelist.data_Editions data)).*1
        ∧ Forall (λ edition,
            codelist.edition_CodeListID edition = codeListID
            ∧ ∃ versionList,
                codelist.data_Editions data !! codelist.edition_ID edition
                = Some versionList
                ∧ codelist.edition_LatestVersion edition
                  = codelist.max versionList
                ∧ (0 ≤ codelist.edition_LatestVersion edition)%Z
                ∧ Forall (λ version,
                    (version ≤ codelist.edition_LatestVersion edition)%Z)
                    versionList)
            (codelist.dataset_Editions dataset))
      (codelist.datasetItems codeListID datasets).
Proof.
  intros Hfair. split.
  { unfold codelist.datasetItems. by apply fmap_range_fst. }
  unfold codelist.datasetItems. apply Forall_fmap, Forall_forall.
  intros entry Hentry. simpl.
  exists entry.2. split; [by apply elem_of_rangeOver|].
  split; [reflexivity|]. split.
  { unfold codelist.datasetEditions. by apply fmap_range_fst. }
  unfold codelist.datasetEditions. apply Forall_fmap, Forall_forall.
  intros edition Hedition. simpl. split; [reflexivity|].
  exists edition.2. split; [by apply elem_of_rangeOver|].
  split; [reflexivity|].
  destruct (max_from_bounds edition.2 0) as (Hzero & Hall & _).
  by split.
Qed.

Context {B : Type} {pool : BoltPool B} {fmtq : codelist.Formatting}
        {entities : codelist.Entities} {ranging : codelist.GoRange}.

(** X7.  GetCodes, GetCode and GetCodeDatasets first read the edition,
    and report every failure of that read as ErrNotFound: a pool that
    gives no connection, a rejected statement and a mapper error all
    come back as ErrNotFound, with the cause dropped.  The query for the
    codes is then not sent: the store is as the edition read left it. *)
Theorem code_queries_report_an_edition_failure_as_not_found
    (codeListID editionID code : string) (err : error) (st st1 : store B) :
  codelist.GetEdition codeListID editionID st = (inl err, st1) →
  codelist.GetCodes codeListID editionID st = (inl driver.ErrNotFound, st1)
  ∧ codelist.GetCode codeListID editionID code st
    = (inl driver.ErrNotFound, st1)
  ∧ codelist.GetCodeDatasets codeListID editionID code st
    = (inl driver.ErrNotFound, st1).
Proof.
  intros Hedition.
  unfold codelist.GetCodes, codelist.GetCode, codelist.GetCodeDatasets.
  rewrite Hedition. done.
Qed.

End CodeListFacts.

Section CodeListRuns.

Import boltmock doubles.

Lemma GetCodeDatasets_lists_each_dataset_and_edition_once_witness :
  codelist.dataset_ID
    <$> codelist.datasetItems (ranging := codelist.inKeyOrder) "cpih1dim1aggid"
          collected
  ≡ₚ (map_to_list collected).*1
  ∧ (λ dataset, codelist.edition_LatestVersion
                  <$> codelist.dataset_Editions dataset)
      <$> codelist.datasetItems (ranging := codelist.inKeyOrder)
            "cpih1dim1aggid" collected
    ≡ₚ [[3%Z]; [0%Z]].
Proof.
  split.
  - apply (GetCodeDatasets_lists_each_dataset_and_edition_once
             (ranging := codelist.inKeyOrder) "cpih1dim1aggid" collected).
    intros A m. reflexivity.
  - vm_compute. first [reflexivity | apply perm_swap].
Defined.

Lemma code_queries_report_an_edition_failure_as_not_found_witness :
  codelist.GetCodes (pool := boltPool) (fmtq := namedCodelist)
    (entities := fieldEntities) "cpih1dim1aggid" "one-off" (scripted [])
  = (inl driver.ErrNotFound,
     {| neo4j.backend := neo4j.backend (scripted []);
        neo4j.calls :=
          [neo4j.QueryNeoCall "GetCodeListEdition(cpih1dim1aggid,one-off)" ∅] |}).
Proof.
  apply (code_queries_report_an_edition_failure_as_not_found
           (pool := boltPool) (fmtq := namedCodelist)
           (entities := fieldEntities) (ranging := codelist.inKeyOrder)
           "cpih1dim1aggid" "one-off" "cpih1dim1S90401"
           (behind malformedErr) (scripted [])).
  reflexivity.
Defined.

End CodeListRuns.

(** ** What a batch of the Neptune driver does *)

Section NeptuneBatchFacts.

Import neptune neptunetest.

Context {rt : GoRuntime} {B : Type} {pool : NeptunePool B} {codec : Graphson}.

Lemma createEdges_trace (codeListID : string) (entries : list (string * string))
    (st : store B) :
  let stmt (entry : string * string) :=
    Sprintf query.CreateHasCodeEdge
      [fmt.Str entry.2; fmt.Str codeListID; fmt.Str entry.1] in
  match createEdges codeListID entries st with
  | (inr nodeIDs, st') =>
      nodeIDs = ∅
      ∧ calls st' = calls st ++ (ExecuteCall ∘ stmt <$> entries)
  | (inl err, st') =>
      ∃ sent entry rest cause,
        entries = sent ++ entry :: rest
        ∧ calls st' = calls st ++ (ExecuteCall ∘ stmt <$> sent ++ [entry])
        ∧ err = driver.Wrapf cause "Gremlin query failed: %q" (stmt entry)
  end.
Proof.
  intros stmt. revert st.
  induction entries as [|[nodeId code] rest IH]; intros st.
  - simpl. split; [reflexivity | by rewrite app_nil_r].
  - cbn [createEdges]. unfold exec, issue.
    destruct (Execute _ (backend st)) as [[cause|res] b].
    + exists [], (nodeId, code), rest, cause. done.
    + specialize (IH {| backend := b;
                        calls := calls st ++ [ExecuteCall (stmt (nodeId, code))] |}).
      destruct (createEdges codeListID rest _) as [[err|nodeIDs] st'].
      * destruct IH as (sent & entry & rest' & cause & -> & Hcalls & ->).
        exists ((nodeId, code) :: sent), entry, rest', cause.
        split; [reflexivity|]. split; [|reflexivity].
        rewrite Hcalls. cbn [calls]. by rewrite <- app_assoc.
      * destruct IH as [-> Hcalls]. split; [reflexivity|].
        rewrite Hcalls. cbn [calls]. by rewrite <- app_assoc.
Qed.


Lemma decodeItems_stored (items : list RawMessage)
    (nodeIdOrders result : gmap string string) :
  decodeItems items nodeIdOrders = inr result
  ↔ ∃ pairs,
      Forall2 (λ item pair, decodedPair item = inr pair) items pairs
      ∧ result = stored pairs nodeIdOrders.
Proof.
  revert nodeIdOrders.
  induction items as [|val rest IH]; intros nodeIdOrders.
  - simpl. split.
    + intros [= <-]. exists []. split; [constructor | reflexivity].
    + intros (pairs & Hall & ->). apply Forall2_nil_inv_l in Hall as ->.
      reflexivity.
  - cbn [decodeItems]. split.
    + intros Hdecode.
      destruct (DeserializeMapFromBytes val) as [err|nodeIdCodeMap] eqn:Hmap;
        [discriminate|].
      destruct (getNodeIdCodeFromMap nodeIdCodeMap) as [err|[nodeId code]]
        eqn:Hpair; [discriminate|].
      apply IH in Hdecode as (pairs & Hall & ->).
      exists ((nodeId, code) :: pairs). split; [|reflexivity].
      constructor; [|done]. unfold decodedPair. by rewrite Hmap.
    + intros (pairs & Hall & ->).
      apply Forall2_cons_inv_l in Hall as ([nodeId code] & pairs' & Hval & Hall & ->).
      unfold decodedPair in Hval.
      destruct (DeserializeMapFromBytes val) as [err|nodeIdCodeMap];
        [discriminate|].
      rewrite Hval. apply IH. by exists pairs'.
Qed.

(** X10.  What the batch function of doGetGenericHierarchyNodeIDs makes
    of the responses to its statement.  It succeeds exactly when every
    response is a list and every item of every list decodes to an
    (id, code) pair; the mapping it returns then holds each pair under
    its id, stored in the order of the responses, so that of two records
    with the same id the later one is kept. *)
Theorem decodeResponses_stores_every_record_in_order (res : list Response)
    (nodeIdOrders result : gmap string string) :
  decodeResponses res nodeIdOrders = inr result
  ↔ ∃ pairss,
      Forall2 (λ response pairs,
          ∃ items,
            DeserializeListFromBytes (Data response) = inr items
            ∧ Forall2 (λ item pair, decodedPair item = inr pair) items pairs)
        res pairss
      ∧ result = stored (concat pairss) nodeIdOrders.
Proof.
  revert nodeIdOrders.
  induction res as [|response rest IH]; intros nodeIdOrders.
  - simpl. split.
    + intros [= <-]. exists []. split; [constructor | reflexivity].
    + intros (pairss & Hall & ->). apply Forall2_nil_inv_l in Hall as ->.
      reflexivity.
  - cbn [decodeResponses]. split.
    + intros Hdecode.
      destruct (DeserializeListFromBytes (Data response)) as [err|items]
        eqn:Hlist; [discriminate|].
      destruct (decodeItems items nodeIdOrders) as [err|nodeIdOrders']
        eqn:Hitems; [discriminate|].
      apply decodeItems_stored in Hitems as (pairs & Hpairs & ->).
      apply IH in Hdecode as (pairss & Hall & ->).
      exists (pairs :: pairss). split.
      * constructor; [by exists items | done].
      * cbn [concat]. unfold stored. by rewrite foldl_app.
    + intros (pairss & Hall & ->).
      apply Forall2_cons_inv_l in Hall
        as (pairs & pairss' & (items & Hlist & Hpairs) & Hall & ->).
      rewrite Hlist.
      assert (decodeItems items nodeIdOrders = inr (stored pairs nodeIdOrders))
        as -> by (apply decodeItems_stored; by exists pairs).
      apply IH. exists pairss'. split; [done|].
      cbn [concat]. unfold stored. by rewrite foldl_app.
Qed.

Lemma stored_NoDup (pairs : list (string * string))
    (nodeIdOrders : gmap string string) :
  NoDup pairs.*1 →
  stored pairs nodeIdOrders = list_to_map pairs ∪ nodeIdOrders.
Proof.
  revert nodeIdOrders.
  induction pairs as [|[nodeId code] rest IH]; intros nodeIdOrders Hnodup.
  - simpl. by rewrite (left_id_L ∅ (∪)).
  - apply NoDup_cons in Hnodup as [Hfresh Hnodup].
    cbn [stored foldl fst snd]. fold (stored rest (<[nodeId:=code]> nodeIdOrders)).
    rewrite (IH _ Hnodup). cbn [list_to_map foldr fst snd uncurry].
    fold (list_to_map (M := gmap string string) rest).
    rewrite <- insert_union_l.
    symmetry. apply insert_union_r. by apply not_elem_of_list_to_map_1.
Qed.

Lemma stored_range (m : gmap string string) :
  fair rt → stored (range m) ∅ = m.
Proof.
  intros [Hrange _].
  assert (NoDup (range m).*1) as Hnodup.
  { rewrite (Hrange m). apply NoDup_fst_map_to_list. }
  rewrite (stored_NoDup _ _ Hnodup), (right_id_L ∅ (∪)).
  rewrite (list_to_map_proper _ _ Hnodup (Hrange m)).
  apply list_to_map_to_list.
Qed.

Context {writer : GraphsonWriter}.

Lemma mockNodeIdCodeMap_read_back (nodeId code : string) :
  json_Unmarshal (json_Marshal nodeId) = inr nodeId →
  json_Unmarshal (json_Marshal code) = inr code →
  getNodeIdCodeFromMap (mockNodeIdCodeMap nodeId code) = inr (nodeId, code).
Proof.
  intros Hid Hcode. unfold getNodeIdCodeFromMap, mockNodeIdCodeMap.
  rewrite lookup_insert_eq, lookup_insert_ne by done.
  by rewrite lookup_insert_eq, Hid, Hcode.
Qed.


End NeptuneBatchFacts.

Section NeptuneBatchRuns.

Import internal doubles.


End NeptuneBatchRuns.

(** ** The single-statement phases of the Neptune driver *)

Section NeptuneSinglePhases.

Import neptune.

Context {B : Type} {pool : NeptunePool B}.

Lemma exec_once (gremStmt : gremlin) (st : store B) :
  match exec gremStmt st with
  | (inl err, st1) => (Some err, st1)
  | (inr _, st1) => (None, st1)
  end
  = (match (Execute gremStmt (backend st)).1 with
     | inl err => Some err
     | inr _ => None
     end,
     {| backend := (Execute gremStmt (backend st)).2;
        calls := calls st ++ [ExecuteCall gremStmt] |}).
Proof.
  unfold exec, issue.
  by destruct (Execute gremStmt (backend st)) as [[err|res] b].
Qed.


End NeptuneSinglePhases.

(** ** An element without ancestors on the Neo4j backend *)

Section ElementWithoutAncestors.

Import models neo4j.

Context {B : Type} {pool : BoltPool B} {fmtq : Formatting} {mappers : Mappers}.

(** X12.  GetHierarchyElement treats the two follow-up queries of an
    element unequally.  When the element is read and the children query
    finds nothing, that is no error and the element has no children;
    when the ancestry query finds nothing, as for an element at the top
    of its hierarchy, the call returns ErrNotFound, together with the
    element it has read. *)
Theorem neo4j_GetHierarchyElement_fails_without_ancestors
    (instanceID dimension code : string) (read : HierarchyResponse)
    (st st1 st2 st3 : store B) :
  let elementStmt := Sprintf query.GetHierarchyElement [instanceID; dimension] in
  let childrenStmt := Sprintf query.GetChildren [instanceID; dimension] in
  let ancestryStmt := Sprintf query.GetAncestry [instanceID; dimension] in
  ReadWithParams elementStmt {["code" := code]} (Some mapper_Hierarchy) false
    emptyResponse st = (None, read, st1) →
  queryElements instanceID dimension childrenStmt {["code" := ID read]} st1
  = (inl driver.ErrNotFound, st2) →
  queryElements instanceID dimension ancestryStmt {["code" := code]} st2
  = (inl driver.ErrNotFound, st3) →
  queryResponse instanceID dimension elementStmt {["code" := code]} st
  = (inr (setChildren read []), st2)
  ∧ GetHierarchyElement instanceID dimension code st
    = (Some (setBreadcrumbs (setChildren read []) []),
       Some driver.ErrNotFound, st3).
Proof.
  intros elementStmt childrenStmt ancestryStmt Hread Hchildren Hancestry.
  assert (queryResponse instanceID dimension elementStmt {["code" := code]} st
          = (inr (setChildren read []), st2)) as Hresponse.
  { unfold queryResponse, getChildren. fold childrenStmt.
    by rewrite Hread, Hchildren. }
  split; [exact Hresponse|].
  unfold GetHierarchyElement, getAncestry. fold elementStmt ancestryStmt.
  by rewrite Hresponse, Hancestry.
Qed.

End ElementWithoutAncestors.

Section ElementRuns.

Import boltmock.

Lemma neo4j_GetHierarchyElement_fails_without_ancestors_witness :
  (neo4j.GetHierarchyElement (pool := boltPool) (fmtq := named)
     (mappers := plainMappers) "f0a2f3f2" "aggregate" "A0"
     doubles.answeringElement).1
  = (Some {| models.ID := "A0"; models.Label := "root";
             models.Children := []; models.NoOfChildren := 0;
             models.HasData := false; models.Breadcrumbs := [] |},
     Some driver.ErrNotFound).
Proof.
  destruct (neo4j_GetHierarchyElement_fails_without_ancestors
              (pool := boltPool) (fmtq := named) (mappers := plainMappers)
              "f0a2f3f2" "aggregate" "A0" _ doubles.answeringElement _ _ _
              eq_refl eq_refl eq_refl) as [_ Helement].
  rewrite Helement. reflexivity.
Defined.

End ElementRuns.
